(** * ip-tracker: the tracking request pipeline of [tracker.py]

    A shallow embedding of [src/tracker.py] (a Flask application with two
    tracking endpoints) and the properties of its request pipeline:
    client-address resolution, user-agent classification, the derived
    map link, record assembly, load/append/save persistence and the
    response.

    Layout:
    - [Py]: the Python values and built-ins the source relies on
      ([str.lower], [str.strip], [str.split], [in], [float], float
      formatting, exceptions);
    - the collaborators ([geo_lookup], [load_visits], [save_visits]) as an
      interface, with an in-memory instance;
    - the two handlers [track_click] and [image_tracker], each transcribed
      separately from its own source text;
    - the theorems. *)

From Stdlib Require Import ZArith List Bool Ascii String Floats Lia DecimalString.
From stdpp Require Import gmap strings.

#[local] Open Scope string_scope.
#[local] Set Warnings "-inexact-float,-register-all".

(** * Python values and built-ins *)

Module Py.

(** ** Exceptions and results *)

(** The exception classes that the modelled built-ins and collaborators
    can raise.  All of them derive from [Exception]. *)
Inductive exn : Set :=
| TypeError
| ValueError
| OverflowError
| OSError.

(** The result of evaluating an expression that may raise. *)
Inductive outcome (A : Type) : Type :=
| Returned (a : A)
| Raised (e : exn).
Arguments Returned {A} a.
Arguments Raised {A} e.

Definition bind {A B : Type} (m : outcome A) (k : A -> outcome B) : outcome B :=
  match m with
  | Returned a => k a
  | Raised e => Raised e
  end.

(** [try: body / except Exception: handler]. *)
Definition try_except {A : Type} (body : outcome A) (handler : exn -> A) : A :=
  match body with
  | Returned a => a
  | Raised e => handler e
  end.

Definition is_returned {A : Type} (m : outcome A) : bool :=
  match m with
  | Returned _ => true
  | Raised _ => false
  end.

(** How an evaluation ended, without what it returned. *)
Definition completion {A : Type} (m : outcome A) : outcome unit :=
  match m with
  | Returned _ => Returned tt
  | Raised e => Raised e
  end.

(** ** Values

    The values a decoded JSON document or a request can hand to the
    pipeline.  A Python [str] is modelled by [string], each character one
    code point in U+0000..U+00FF (the range of every WSGI header value);
    a Python [float] is an IEEE-754 binary64 number; an [int] is
    unbounded. *)
Inductive pyval : Type :=
| PNone
| PBool (b : bool)
| PInt (n : Z)
| PFloat (f : float)
| PStr (s : string)
| PList (items : list pyval)
| PDict (items : list (string * pyval)).

(** [isinstance(v, (int, float))]; [bool] is a subclass of [int]. *)
Definition isinstance_int_float (v : pyval) : bool :=
  match v with
  | PBool _ | PInt _ | PFloat _ => true
  | PNone | PStr _ | PList _ | PDict _ => false
  end.

(** Truth value of an optional string ([None] and [""] are false). *)
Definition truthy (s : option string) : bool :=
  match s with
  | None | Some "" => false
  | Some _ => true
  end.

(** [a or b] on optional strings whose right operand is a string. *)
Definition or_else (a : option string) (b : string) : string :=
  match a with
  | Some (String c s) => String c s
  | Some "" | None => b
  end.

(** ** Strings *)

(** [str.lower] on one code point of U+0000..U+00FF: A-Z and the
    capital letters U+00C0..U+00DE except the multiplication sign. *)
Definition lower_char (c : ascii) : ascii :=
  let n := N_of_ascii c in
  if ((65 <=? n) && (n <=? 90)
      || (192 <=? n) && (n <=? 222) && negb (n =? 215))%N
  then ascii_of_N (n + 32)
  else c.

Fixpoint lower (s : string) : string :=
  match s with
  | "" => ""
  | String c s' => String (lower_char c) (lower s')
  end.

(** [str.isspace] on one code point, the set [str.strip()] removes. *)
Definition isspace (c : ascii) : bool :=
  let n := N_of_ascii c in
  ((9 <=? n) && (n <=? 13) || (28 <=? n) && (n <=? 32)
   || (n =? 133) || (n =? 160))%N.

Fixpoint lstrip (s : string) : string :=
  match s with
  | "" => ""
  | String c s' => if isspace c then lstrip s' else s
  end.

Fixpoint rstrip (s : string) : string :=
  match s with
  | "" => ""
  | String c s' =>
      match rstrip s' with
      | "" => if isspace c then "" else String c ""
      | r => String c r
      end
  end.

(** [s.strip()] *)
Definition strip (s : string) : string := rstrip (lstrip s).

(** [sub in s] *)
Fixpoint contains (sub s : string) : bool :=
  String.prefix sub s ||
  match s with
  | "" => false
  | String _ s' => contains sub s'
  end.

(** [s.split(sep)] for a one-character separator. *)
Fixpoint split (sep : ascii) (s : string) : list string :=
  match s with
  | "" => [""]
  | String c s' =>
      if Ascii.eqb c sep then "" :: split sep s'
      else match split sep s' with
           | h :: t => String c h :: t
           | [] => [String c ""]
           end
  end.

(** [l[0]] on a list of strings; [split] never returns the empty list. *)
Definition item0 (l : list string) : string := hd "" l.

(** ** Floating-point numbers

    [float] is the kernel's binary64 type; rounding goes through the
    Standard Library's specification of IEEE-754 ([SpecFloat]), which
    rounds to nearest, ties to even, as CPython does. *)

(** [float(n)] for an [int]: the nearest binary64 number, or
    [OverflowError] when [n] rounds beyond the largest one. *)
Definition float_of_int (n : Z) : outcome float :=
  let f := SF2Prim (binary_normalize prec emax n 0 false) in
  if PrimFloat.is_infinity f then Raised OverflowError else Returned f.

(** The binary64 number nearest to [m * 10 ^ e10] ([m >= 0]), with the
    sign [neg].  For a negative [e10] the quotient is computed with at
    least 64 significant bits and a sticky last bit, which rounds like the
    exact quotient. *)
Definition float_of_decimal (neg : bool) (m e10 : Z) : float :=
  if (m =? 0)%Z then (if neg then neg_zero else zero)
  else if (0 <=? e10)%Z then
    SF2Prim (binary_normalize prec emax
               ((if neg then - m else m) * 10 ^ e10)%Z 0 false)
  else
    let d := (10 ^ (- e10))%Z in
    let k := Z.max 0 (Z.log2 d + 66 - Z.log2 m) in
    let n := (m * 2 ^ k)%Z in
    let q := (n / d)%Z in
    let sticky := if (n mod d =? 0)%Z then 0%Z else 1%Z in
    let m' := (2 * q + sticky)%Z in
    SF2Prim (binary_normalize prec emax
               (if neg then - m' else m')%Z (- (k + 1))%Z false).

Definition is_digit (c : ascii) : bool :=
  let n := N_of_ascii c in ((48 <=? n) && (n <=? 57))%N.

Definition digit_value (c : ascii) : Z := Z.of_N (N_of_ascii c - 48).

(** The white space [float(str)] skips at both ends: ASCII white space
    in the C sense, and the two non-ASCII spaces of U+0080..U+00FF. *)
Definition float_space (c : ascii) : bool :=
  let n := N_of_ascii c in
  ((9 <=? n) && (n <=? 13) || (n =? 32) || (n =? 133) || (n =? 160))%N.

Fixpoint lskip (s : string) : string :=
  match s with
  | "" => ""
  | String c s' => if float_space c then lskip s' else s
  end.

Fixpoint rskip (s : string) : string :=
  match s with
  | "" => ""
  | String c s' =>
      match rskip s' with
      | "" => if float_space c then "" else String c ""
      | r => String c r
      end
  end.

(** Underscores of a numeric literal: each one stands between two
    digits; [prev] is the character before [s]. *)
Fixpoint drop_underscores (prev : ascii) (s : string) : option string :=
  match s with
  | "" => if Ascii.eqb prev "_" then None else Some ""
  | String c s' =>
      if Ascii.eqb c "_" then
        if is_digit prev then drop_underscores c s' else None
      else if Ascii.eqb prev "_" && negb (is_digit c) then None
      else option_map (String c) (drop_underscores c s')
  end.

(** Reads a run of digits: the number read so far, how many digits were
    read, and what follows them. *)
Fixpoint take_digits (s : string) (acc count : Z) : Z * Z * string :=
  match s with
  | String c s' =>
      if is_digit c then take_digits s' (10 * acc + digit_value c)%Z (count + 1)%Z
      else (acc, count, s)
  | "" => (acc, count, s)
  end.

Definition take_sign (s : string) : bool * string :=
  match s with
  | String "-" s' => (true, s')
  | String "+" s' => (false, s')
  | _ => (false, s)
  end.

(** [digits [. digits] [(e|E) [sign] digits]] with a digit in the
    mantissa: the mantissa as an integer and the power of ten. *)
Definition parse_decimal (s : string) : option (Z * Z) :=
  let '(ip, ni, r1) := take_digits s 0 0 in
  let '(m, nf, r2) :=
    match r1 with
    | String "." r => take_digits r ip 0
    | _ => (ip, 0%Z, r1)
    end in
  if (ni + nf =? 0)%Z then None
  else match r2 with
       | "" => Some (m, (- nf)%Z)
       | String c r3 =>
           if Ascii.eqb c "e" || Ascii.eqb c "E" then
             let '(eneg, r4) := take_sign r3 in
             let '(ev, ne, r5) := take_digits r4 0 0 in
             if (ne =? 0)%Z then None
             else match r5 with
                  | "" => Some (m, ((if eneg then - ev else ev) - nf)%Z)
                  | _ => None
                  end
           else None
       end.

(** [float(s)] for a [str]. *)
Definition float_of_str (s : string) : outcome float :=
  match drop_underscores "000" (rskip (lskip s)) with
  | None => Raised ValueError
  | Some t =>
      let '(neg, body) := take_sign t in
      let name := lower body in
      if String.eqb name "inf" || String.eqb name "infinity" then
        Returned (if neg then neg_infinity else infinity)
      else if String.eqb name "nan" then Returned nan
      else match parse_decimal body with
           | Some (m, e10) => Returned (float_of_decimal neg m e10)
           | None => Raised ValueError
           end
  end.

(** [float(v)] *)
Definition float (v : pyval) : outcome PrimFloat.float :=
  match v with
  | PNone => Raised TypeError
  | PBool b => Returned (if b then one else zero)
  | PInt n => float_of_int n
  | PFloat f => Returned f
  | PStr s => float_of_str s
  | PList _ | PDict _ => Raised TypeError
  end.

(** ** Formatting a float

    [repr(x)], which is also [str(x)] and what an f-string writes for
    [{x}]: the shortest decimal digit string that reads back as [x],
    the nearest to [x] among the shortest, written in positional
    notation when the decimal point falls within [-4 < decpt <= 16] and
    in exponent notation otherwise. *)

Definition digits_of (n : Z) : string :=
  NilZero.string_of_uint (N.to_uint (Z.to_N n)).

Fixpoint zeros (n : nat) : string :=
  match n with
  | O => ""
  | S n' => String "0" (zeros n')
  end.

Fixpoint drop_trailing_zeros (s : string) : string :=
  match s with
  | "" => ""
  | String c s' =>
      match drop_trailing_zeros s' with
      | "" => if Ascii.eqb c "0" then "" else String c ""
      | r => String c r
      end
  end.

(** The exact value and the rounding interval of the positive float
    [m * 2 ^ e], as numerators over one denominator:
    [(x, lo, hi, den)].  The interval reaches half-way to the neighbours;
    the lower neighbour is twice as close when [m] is the least normal
    mantissa. *)
Definition rounding_interval (m e : Z) : Z * Z * Z * Z :=
  let below := if (m =? 2 ^ 52)%Z && (-1074 <? e)%Z then 1%Z else 2%Z in
  let sh := (e - 2)%Z in
  let scale := if (0 <=? sh)%Z then (2 ^ sh)%Z else 1%Z in
  let den := if (0 <=? sh)%Z then 1%Z else (2 ^ (- sh))%Z in
  ((4 * m * scale)%Z, ((4 * m - below) * scale)%Z, ((4 * m + 2) * scale)%Z, den).

(** [x / den < 10 ^ p] *)
Definition below_pow10 (x den p : Z) : bool :=
  if (0 <=? p)%Z then (x <? 10 ^ p * den)%Z else (x * 10 ^ (- p) <? den)%Z.

(** The least [p] with [x / den < 10 ^ p], searched upwards from an
    estimate that is at most one too small. *)
Definition decimal_point (x den : Z) : Z :=
  let est := ((Z.log2 x - Z.log2 den) * 30103 / 100000 - 1)%Z in
  match List.find (fun p => below_pow10 x den p)
          (List.map (fun i => (est + Z.of_nat i)%Z) (List.seq 0 6)) with
  | Some p => p
  | None => (est + 6)%Z
  end.

(** The [n]-digit decimals next to [x]: the candidate [c * 10 ^ t]
    inside the rounding interval that is nearest to [x], if there is one
    ([even]: the interval is closed). *)
Definition candidate (even : bool) (x lo hi den t : Z) : option Z :=
  let up := if (0 <=? t)%Z then 1%Z else (10 ^ (- t))%Z in
  let dn := if (0 <=? t)%Z then (den * 10 ^ t)%Z else den in
  let xs := (x * up)%Z in
  let c0 := (xs / dn)%Z in
  let inside c :=
    if even then (lo * up <=? c * dn)%Z && (c * dn <=? hi * up)%Z
    else (lo * up <? c * dn)%Z && (c * dn <? hi * up)%Z in
  let d0 := (xs - c0 * dn)%Z in
  let d1 := ((c0 + 1) * dn - xs)%Z in
  match inside c0, inside (c0 + 1)%Z with
  | true, true =>
      if (d0 <? d1)%Z then Some c0
      else if (d1 <? d0)%Z then Some (c0 + 1)%Z
      else Some (if Z.even c0 then c0 else c0 + 1)%Z
  | true, false => Some c0
  | false, true => Some (c0 + 1)%Z
  | false, false => None
  end.

(** The shortest digits of the positive float [m * 2 ^ e] and the
    position of its decimal point: the value is [0.digits * 10 ^ decpt]. *)
Definition shortest_digits (m e : Z) : string * Z :=
  let '(x, lo, hi, den) := rounding_interval m e in
  let p := decimal_point x den in
  let try n :=
    match candidate (Z.even m) x lo hi den (p - Z.of_nat n)%Z with
    | Some c =>
        let ds := digits_of c in
        Some (drop_trailing_zeros ds, (Z.of_nat (String.length ds) + p - Z.of_nat n)%Z)
    | None => None
    end in
  match List.find (fun r => match r with Some _ => true | None => false end)
          (List.map try (List.seq 1 17)) with
  | Some (Some r) => r
  | _ => let c := fst (Z.div_eucl (x * 10 ^ 17) (den * 10 ^ p))%Z in (digits_of c, p)
  end.

(** Lays the digits out, as [format_float_short] does for [repr]. *)
Definition layout (ds : string) (decpt : Z) : string :=
  let nd := Z.of_nat (String.length ds) in
  if (-4 <? decpt)%Z && (decpt <=? 16)%Z then
    if (decpt <=? 0)%Z then "0." ++ zeros (Z.to_nat (- decpt)) ++ ds
    else if (nd <=? decpt)%Z then ds ++ zeros (Z.to_nat (decpt - nd)) ++ ".0"
    else String.substring 0 (Z.to_nat decpt) ds ++ "."
         ++ String.substring (Z.to_nat decpt) (Z.to_nat (nd - decpt)) ds
  else
    let ex := (decpt - 1)%Z in
    let es := digits_of (Z.abs ex) in
    String.substring 0 1 ds
    ++ (if (1 <? nd)%Z then "." ++ String.substring 1 (Z.to_nat (nd - 1)) ds else "")
    ++ "e" ++ (if (ex <? 0)%Z then "-" else "+")
    ++ (if (String.length es <? 2)%nat then "0" ++ es else es).

(** [repr(x)] *)
Definition float_repr (x : PrimFloat.float) : string :=
  match Prim2SF x with
  | S754_nan => "nan"
  | S754_infinity neg => if neg then "-inf" else "inf"
  | S754_zero neg => if neg then "-0.0" else "0.0"
  | S754_finite neg m e =>
      let '(ds, decpt) := shortest_digits (Zpos m) e in
      (if neg then "-" else "") ++ layout ds decpt
  end.

End Py.

Import Py.

(** * Data of the application *)

(** The dict [_parse_user_agent] returns. *)
Record ua_info : Type := { browser : string; os : string }.

(** One entry of the visit collection: the dict [record] that both
    endpoints build, key by key.  The geographic keys hold whatever the
    lookup's mapping holds under them ([PNone] when the key is missing). *)
Module Visit.
Record t : Type := {
  time : string;
  ip : option string;
  country : pyval;
  region : pyval;
  city : pyval;
  lat : pyval;
  lon : pyval;
  isp : pyval;
  token : string;
  user_agent : option string;
  browser : string;
  os : string;
  google_maps_url : option string
}.
End Visit.

(** The three settings [create_app] reads from [config]. *)
Record Config : Type := {
  visits_path : string;
  ip_api : string;
  default_target : string
}.

(** Flask's [request]: the headers and the query arguments as mappings,
    and the peer address. *)
Record Request : Type := {
  headers : gmap string string;
  args : gmap string string;
  remote_addr : option string
}.

(** Modelled from the spec: [geo.py] is not among the sources.  Section 6
    gives the lookup as [lookup(ip, endpointConfig) -> optional map],
    "null/absent on failure"; [geo_lookup w ip api] is what the call
    [geo_lookup(ip, ip_api)] returns while this request is handled.

    The record holds what a handler observes outside the request:
    besides the lookup, [utcnow_iso] is the value of
    [datetime.now(timezone.utc).isoformat()]. *)
Record World : Type := {
  geo_lookup : option string -> string -> option (gmap string pyval);
  utcnow_iso : string
}.

(** What an endpoint returns: the response [redirect(url)] builds, with
    [url] in its [Location] header, or
    [render_template(name, image_url=...)]. *)
Inductive response : Type :=
| redirect (location : string)
| render_template (name : string) (image_url : string).

(** A carriage return or a line feed occurs in [s]. *)
Definition has_newline (s : string) : bool :=
  contains (String "013" "") s || contains (String "010" "") s.

(** Flask's [redirect(location)], the call of line 110.  It builds the
    response and sets its [Location] header to [location]; a header value
    that holds a carriage return or a line feed is refused with
    [ValueError], so the call raises on such a target. *)
Module Flask.
Definition redirect (location : string) : outcome response :=
  if has_newline location then Raised ValueError
  else Returned (redirect location).
End Flask.

(** [d.get(key)] on a decoded JSON object. *)
Definition dict_get (d : gmap string pyval) (key : string) : pyval :=
  default PNone (d !! key).

(** * The storage collaborator *)

(** Modelled from the spec: [storage.py] is not among the sources.
    Section 6 gives the collaborator as
    [load(path) -> ordered sequence of VisitRecord] and
    [save(path, sequence) -> success|failure]; [load_visits(path)] and
    [save_visits(path, visits)] are an interface over some type of disk
    states.  Loading reads; saving may change the disk; both may raise
    (section 7: a storage failure propagates). *)
Class Storage (disk : Type) : Type := {
  load_visits : string -> disk -> outcome (list Visit.t);
  save_visits : string -> list Visit.t -> disk -> outcome unit * disk
}.

(** Modelled from the spec: the contract of section 6, "[load]
    returning the previously saved sequence unchanged in order, and [save]
    durably overwriting the full collection". *)
Class StorageContract (disk : Type) `{Storage disk} : Prop := {
  load_after_save :
    forall (path : string) (visits : list Visit.t) (d d' : disk),
      save_visits path visits d = (Returned tt, d') ->
      load_visits path d' = Returned visits
}.

(** Handlers run against the disk and may raise. *)
Definition IO (disk A : Type) : Type := disk -> outcome A * disk.

Definition io_ret {disk A : Type} (a : A) : IO disk A :=
  fun d => (Returned a, d).

Definition io_bind {disk A B : Type} (m : IO disk A) (k : A -> IO disk B) : IO disk B :=
  fun d =>
    match m d with
    | (Returned a, d') => k a d'
    | (Raised e, d') => (Raised e, d')
    end.

Notation "'let*' x ':=' m 'in' k" := (io_bind m (fun x => k))
  (at level 10, x name, m at level 100, k at level 200).

(** An evaluation that does not touch the disk. *)
Definition io_lift {disk A : Type} (m : outcome A) : IO disk A :=
  fun d => (m, d).

Definition io_load `{Storage disk} (path : string) : IO disk (list Visit.t) :=
  fun d => (load_visits path d, d).

Definition io_save `{Storage disk} (path : string) (visits : list Visit.t) : IO disk unit :=
  fun d => save_visits path visits d.

(** * [_parse_user_agent] (lines 10-48) *)

Definition _parse_user_agent (ua : option string) : ua_info :=
  match ua with
  | None | Some "" => {| browser := "Unknown"; os := "Unknown" |}
  | Some ua =>
      let ua_lower := lower ua in
      let browser :=
        if contains "edg" ua_lower then "Edge"
        else if contains "opr" ua_lower || contains "opera" ua_lower then "Opera"
        else if contains "chrome" ua_lower && contains "safari" ua_lower
                && negb (contains "edge" ua_lower) then "Chrome"
        else if contains "firefox" ua_lower then "Firefox"
        else if contains "safari" ua_lower && negb (contains "chrome" ua_lower) then "Safari"
        else "Other" in
      let os :=
        if contains "windows" ua_lower then "Windows"
        else if contains "android" ua_lower then "Android"
        else if contains "iphone" ua_lower || contains "ipad" ua_lower
                || contains "ios" ua_lower then "iOS"
        else if contains "mac os x" ua_lower || contains "macintosh" ua_lower then "macOS"
        else if contains "linux" ua_lower then "Linux"
        else "Other" in
      {| browser := browser; os := os |}
  end.

(** * [track_click] (lines 58-110) *)

(** Lines 67-103: from the request to the dict [record]. *)
Definition track_click_record (cfg : Config) (w : World) (token : string)
    (request : Request) : Visit.t :=
  let ip :=
    match headers request !! "X-Forwarded-For" with
    | Some v => Some v
    | None => remote_addr request
    end in
  let ip :=
    match ip with
    | Some s =>
        if truthy (Some s) && contains "," s
        then Some (strip (item0 (split "," s)))
        else Some s
    | None => None
    end in
  let geo := default ∅ (geo_lookup w ip (ip_api cfg)) in
  let lat := dict_get geo "lat" in
  let lon := dict_get geo "lon" in
  let google_maps_url :=
    if isinstance_int_float lat || isinstance_int_float lon then
      try_except
        (bind (float lat) (fun lat_f =>
         bind (float lon) (fun lon_f =>
         Returned (Some ("https://www.google.com/maps?q="
                         ++ float_repr lat_f ++ "," ++ float_repr lon_f)))))
        (fun _ => None)
    else None in
  let ua_raw := headers request !! "User-Agent" in
  let ua_info := _parse_user_agent ua_raw in
  {| Visit.time := utcnow_iso w;
     Visit.ip := ip;
     Visit.country := dict_get geo "country";
     Visit.region := dict_get geo "regionName";
     Visit.city := dict_get geo "city";
     Visit.lat := lat;
     Visit.lon := lon;
     Visit.isp := dict_get geo "isp";
     Visit.token := token;
     Visit.user_agent := ua_raw;
     Visit.browser := browser ua_info;
     Visit.os := os ua_info;
     Visit.google_maps_url := google_maps_url |}.

(** Lines 105-110: load, append, save, redirect. *)
Definition track_click `{Storage disk} (cfg : Config) (w : World) (token : string)
    (request : Request) : IO disk response :=
  let record := track_click_record cfg w token request in
  let* visits := io_load (visits_path cfg) in
  let visits := (visits ++ [record])%list in
  let* _ := io_save (visits_path cfg) visits in
  let target_url := or_else (args request !! "next") (default_target cfg) in
  io_lift (Flask.redirect target_url).

(** * [image_tracker] (lines 123-171) *)

(** Lines 130-164. *)
Definition image_tracker_record (cfg : Config) (w : World) (token : string)
    (request : Request) : Visit.t :=
  let ip :=
    match headers request !! "X-Forwarded-For" with
    | Some v => Some v
    | None => remote_addr request
    end in
  let ip :=
    match ip with
    | Some s =>
        if truthy (Some s) && contains "," s
        then Some (strip (item0 (split "," s)))
        else Some s
    | None => None
    end in
  let geo := default ∅ (geo_lookup w ip (ip_api cfg)) in
  let lat := dict_get geo "lat" in
  let lon := dict_get geo "lon" in
  let google_maps_url :=
    if isinstance_int_float lat || isinstance_int_float lon then
      try_except
        (bind (float lat) (fun lat_f =>
         bind (float lon) (fun lon_f =>
         Returned (Some ("https://www.google.com/maps?q="
                         ++ float_repr lat_f ++ "," ++ float_repr lon_f)))))
        (fun _ => None)
    else None in
  let ua_raw := headers request !! "User-Agent" in
  let ua_info := _parse_user_agent ua_raw in
  {| Visit.time := utcnow_iso w;
     Visit.ip := ip;
     Visit.country := dict_get geo "country";
     Visit.region := dict_get geo "regionName";
     Visit.city := dict_get geo "city";
     Visit.lat := lat;
     Visit.lon := lon;
     Visit.isp := dict_get geo "isp";
     Visit.token := token;
     Visit.user_agent := ua_raw;
     Visit.browser := browser ua_info;
     Visit.os := os ua_info;
     Visit.google_maps_url := google_maps_url |}.

(** Lines 166-171. *)
Definition image_tracker `{Storage disk} (cfg : Config) (w : World) (token : string)
    (request : Request) : IO disk response :=
  let record := image_tracker_record cfg w token request in
  let* visits := io_load (visits_path cfg) in
  let visits := (visits ++ [record])%list in
  let* _ := io_save (visits_path cfg) visits in
  let image_url :=
    or_else (args request !! "src")
            "https://via.placeholder.com/800x500.png?text=Image" in
  io_ret (render_template "image_page.html" image_url).

(** * The two endpoints together *)

(** [/t/<token>] and [/img/<token>]. *)
Inductive endpoint : Set :=
| ClickEndpoint
| ImageEndpoint.

Definition visit_record (ep : endpoint) : Config -> World -> string -> Request -> Visit.t :=
  match ep with
  | ClickEndpoint => track_click_record
  | ImageEndpoint => image_tracker_record
  end.

Definition handle `{Storage disk} (ep : endpoint)
    : Config -> World -> string -> Request -> IO disk response :=
  match ep with
  | ClickEndpoint => track_click
  | ImageEndpoint => image_tracker
  end.

(** One tracked request: which endpoint it reached, with what. *)
Record hit : Type := {
  hit_endpoint : endpoint;
  hit_world : World;
  hit_token : string;
  hit_request : Request
}.

Definition hit_record (cfg : Config) (h : hit) : Visit.t :=
  visit_record (hit_endpoint h) cfg (hit_world h) (hit_token h) (hit_request h).

(** The requests of [hits] served one after the other, none overlapping
    another: the results in order, and the disk at the end. *)
Fixpoint serve_all `{Storage disk} (cfg : Config) (hits : list hit) (d : disk)
    : list (outcome response) * disk :=
  match hits with
  | [] => ([], d)
  | h :: rest =>
      let '(o, d1) :=
        handle (hit_endpoint h) cfg (hit_world h) (hit_token h) (hit_request h) d in
      let '(others, d2) := serve_all cfg rest d1 in
      (o :: others, d2)
  end.

(** * Vocabulary of the specification *)

(** "Parses as a finite number": [float(v)] succeeds and its result is
    neither a NaN nor an infinity. *)
Definition finite_number (v : pyval) : bool :=
  match float v with
  | Returned f => PrimFloat.is_finite f
  | Raised _ => false
  end.

(** Every character of [s] satisfies [p]. *)
Fixpoint every (p : ascii -> bool) (s : string) : bool :=
  match s with
  | "" => true
  | String c s' => p c && every p s'
  end.

Definition first_char (s : string) : option ascii :=
  match s with
  | "" => None
  | String c _ => Some c
  end.

Fixpoint last_char (s : string) : option ascii :=
  match s with
  | "" => None
  | String c "" => Some c
  | String _ s' => last_char s'
  end.

(** [entry] is the first comma-separated entry of [chain]: what stands
    before the first comma. *)
Definition first_entry (chain entry : string) : Prop :=
  contains "," entry = false /\ exists rest : string, chain = entry ++ "," ++ rest.

(** No white space at either end. *)
Definition bare (t : string) : Prop :=
  (forall c : ascii, first_char t = Some c -> isspace c = false) /\
  (forall c : ascii, last_char t = Some c -> isspace c = false).

(** [t] is [s] trimmed of surrounding white space: [s] is [t] between
    two runs of white space, and [t] has none at either end. *)
Definition trimmed (s t : string) : Prop :=
  bare t /\
  exists l r : string,
    s = l ++ t ++ r /\ every isspace l = true /\ every isspace r = true.

(** The fixed template of the map link, filled with two floats as
    Python writes them. *)
Definition maps_link (lat_f lon_f : PrimFloat.float) : string :=
  "https://www.google.com/maps?q=" ++ float_repr lat_f ++ "," ++ float_repr lon_f.

(** The substrings the browser rules and the OS rules look for. *)
Definition browser_patterns : list string :=
  ["edg"; "opr"; "opera"; "chrome"; "safari"; "firefox"].

Definition os_patterns : list string :=
  ["windows"; "android"; "iphone"; "ipad"; "ios"; "mac os x"; "macintosh"; "linux"].

(** No pattern of the list occurs in the lower-cased user agent. *)
Definition matches_none (patterns : list string) (ua : string) : bool :=
  forallb (fun p => negb (contains p (lower ua))) patterns.

(** The target of the redirect: [next] when the argument is present and
    not empty, the default target when it is absent or empty. *)
Definition chosen_target (cfg : Config) (rq : Request) : string :=
  match args rq !! "next" with
  | Some (String c rest) => String c rest
  | Some "" | None => default_target cfg
  end.

(** The kind of response each endpoint gives. *)
Definition response_of (ep : endpoint) (r : response) : bool :=
  match ep, r with
  | ClickEndpoint, redirect _ => true
  | ImageEndpoint, render_template "image_page.html" _ => true
  | _, _ => false
  end.

(** * An in-memory disk *)

(** Modelled from the spec: [storage.py] is not among the sources.  A
    disk maps a path to the sequence last saved there (section 6: [save]
    overwrites the full collection, [load] returns it unchanged); a path
    never saved holds the empty collection, and saving to a read-only
    disk fails and changes nothing ("save -> success|failure"). *)
Record mem_disk : Type := {
  files : gmap string (list Visit.t);
  read_only : bool
}.

(** Modelled from the spec: loading and saving on the in-memory disk. *)
#[export] Instance mem_storage : Storage mem_disk := {
  load_visits path d := Returned (default [] (files d !! path));
  save_visits path visits d :=
    if read_only d then (Raised OSError, d)
    else (Returned tt, {| files := <[path := visits]> (files d); read_only := false |})
}.

Definition empty_disk : mem_disk := {| files := ∅; read_only := false |}.

(** * Sample inputs *)

Definition sample_config : Config := {|
  visits_path := "data/visits.json";
  ip_api := "http://ip-api.com/json/";
  default_target := "https://example.com/landing"
|}.

(** A lookup that answers every address with the mapping [geo]. *)
Definition world_with (geo : option (gmap string pyval)) : World := {|
  geo_lookup := fun _ _ => geo;
  utcnow_iso := "2024-05-01T12:00:00+00:00"
|}.

Definition paris : gmap string pyval :=
  <["lat" := PFloat 48.85]> (<["lon" := PFloat 2.35]>
  (<["country" := PStr "France"]> (<["city" := PStr "Paris"]> ∅))).

(** A proxied browser request: two hops, a Chrome-on-Windows agent. *)
Definition proxied_request : Request := {|
  headers :=
    <["X-Forwarded-For" := "203.0.113.5, 10.0.0.1"]>
    (<["User-Agent" := "Mozilla/5.0 (Windows NT 10.0) AppleWebKit/537.36 (KHTML, like Gecko) Chrome/99.0 Safari/537.36"]> ∅);
  args := <["next" := "https://example.org/article"]> ∅;
  remote_addr := Some "10.0.0.1"
|}.

(** A direct request with no headers and no query arguments. *)
Definition bare_request : Request := {|
  headers := ∅;
  args := ∅;
  remote_addr := Some "198.51.100.7"
|}.

(** [/t/<token>?next=https://example.org/%0ASet-Cookie:%20x=1]: a
    target with a line feed in it. *)
Definition newline_next_request : Request := {|
  headers := ∅;
  args := <["next" := "https://example.org/" ++ String "010" "Set-Cookie: x=1"]> ∅;
  remote_addr := Some "198.51.100.7"
|}.

(** A single forwarded hop, sent with blanks around it. *)
Definition padded_request : Request := {|
  headers := <["X-Forwarded-For" := " 203.0.113.5 "]> ∅;
  args := ∅;
  remote_addr := Some "10.0.0.1"
|}.

(** [/t/<token>?next=]: the argument is there, and empty. *)
Definition blank_next_request : Request := {|
  headers := ∅;
  args := <["next" := ""]> ∅;
  remote_addr := Some "198.51.100.7"
|}.

(** Coordinates as a JSON decoder yields them for [Infinity] or
    [1e999], and as strings. *)
Definition off_the_map : gmap string pyval :=
  <["lat" := PFloat infinity]> (<["lon" := PFloat 2.35]> ∅).

Definition quoted_coordinates : gmap string pyval :=
  <["lat" := PStr "48.85"]> (<["lon" := PStr "2.35"]> ∅).

Definition half_numeric : gmap string pyval :=
  <["lat" := PFloat 48.85]> (<["lon" := PStr "east"]> ∅).

(** Two requests in a row: a click, then a pixel. *)
Definition two_hits : list hit :=
  [ {| hit_endpoint := ClickEndpoint; hit_world := world_with (Some paris);
       hit_token := "promo"; hit_request := proxied_request |};
    {| hit_endpoint := ImageEndpoint; hit_world := world_with None;
       hit_token := "pixel"; hit_request := bare_request |} ].

(** A browser that carries the Edge marker next to Chrome's and
    Safari's, and an agent no rule knows. *)
Definition edge_agent : string :=
  "Mozilla/5.0 (Windows NT 10.0; Win64; x64) AppleWebKit/537.36 (KHTML, like Gecko) Chrome/120.0.0.0 Safari/537.36 Edg/120.0.0.0".

Definition plain_agent : string := "curl/8.4.0".

(** * [create_app] (lines 51-56) *)

(** What starting the application gives: the application, or the
    [KeyError] of a subscript whose key is missing. *)
Inductive startup (A : Type) : Type :=
| Started (a : A)
| KeyError (key : string).
Arguments Started {A} a.
Arguments KeyError {A} key.

(** [d[key]] on a dict. *)
Definition subscript {V : Type} (d : gmap string V) (key : string) : startup V :=
  match d !! key with
  | Some v => Started v
  | None => KeyError key
  end.

Definition startup_bind {A B : Type} (m : startup A) (k : A -> startup B) : startup B :=
  match m with
  | Started a => k a
  | KeyError key => KeyError key
  end.

(** The three subscripts of lines 54-56, in their order, on a
    configuration of two levels whose leaves are strings.  The handlers
    are closures over the three values read: the application created is
    the settings they run with. *)
Definition create_app (config : gmap string (gmap string string)) : startup Config :=
  startup_bind (subscript config "storage") (fun storage =>
  startup_bind (subscript storage "visits_path") (fun visits_path =>
  startup_bind (subscript config "tracking") (fun tracking =>
  startup_bind (subscript tracking "ip_info_api") (fun ip_api =>
  startup_bind (subscript config "tracking") (fun tracking' =>
  startup_bind (subscript tracking' "default_target_url") (fun default_target =>
  Started {| visits_path := visits_path;
             ip_api := ip_api;
             default_target := default_target |})))))).

(** * [list_visits] and [dashboard] (lines 112-121) *)

(** What the two views return: [jsonify(visits)] or
    [render_template(name, visits=visits)]. *)
Inductive view_response : Type :=
| jsonify (visits : list Visit.t)
| render_template_visits (name : string) (visits : list Visit.t).

Definition list_visits `{Storage disk} (cfg : Config) : IO disk view_response :=
  let* visits := io_load (visits_path cfg) in
  io_ret (jsonify visits).

Definition dashboard `{Storage disk} (cfg : Config) : IO disk view_response :=
  let* visits := io_load (visits_path cfg) in
  io_ret (render_template_visits "dashboard.html" visits).

(** * Two requests that overlap *)

(** The storage steps of two tracked requests when the second loads
    before the first has saved: load, load, save, save.  Nothing in the
    handlers orders them otherwise. *)
Definition serve_overlapped `{Storage disk} (cfg : Config) (a b : hit) : IO disk unit :=
  let* visits_a := io_load (visits_path cfg) in
  let* visits_b := io_load (visits_path cfg) in
  let* _ := io_save (visits_path cfg) (visits_a ++ [hit_record cfg a])%list in
  io_save (visits_path cfg) (visits_b ++ [hit_record cfg b])%list.

(** * What every record satisfies *)

Definition browser_categories : list string :=
  ["Unknown"; "Edge"; "Opera"; "Chrome"; "Firefox"; "Safari"; "Other"].

Definition os_categories : list string :=
  ["Unknown"; "Windows"; "Android"; "iOS"; "macOS"; "Linux"; "Other"].

(** The shape of a record built by the endpoints: categories from the
    closed sets, "Unknown" for both or for neither, an address with no
    comma in it, and a map link only beside a coordinate of a numeric
    type. *)
Definition well_formed (r : Visit.t) : Prop :=
  In (Visit.browser r) browser_categories /\
  In (Visit.os r) os_categories /\
  (Visit.browser r = "Unknown" <-> Visit.os r = "Unknown") /\
  (forall a : string, Visit.ip r = Some a -> contains "," a = false) /\
  (Visit.google_maps_url r <> None ->
   isinstance_int_float (Visit.lat r) || isinstance_int_float (Visit.lon r) = true).

(** * More sample inputs *)

(** The request of [proxied_request] with a query string and a header
    the handlers do not read. *)
Definition noisy_request : Request := {|
  headers :=
    <["Accept-Language" := "fr-FR"]> (headers proxied_request);
  args := <["src" := "https://example.org/cat.png"]> (<["utm" := "mail"]> ∅);
  remote_addr := Some "10.0.0.1"
|}.

(** Other storage and redirect settings, the same lookup endpoint. *)
Definition other_config : Config := {|
  visits_path := "/var/lib/tracker/visits.json";
  ip_api := "http://ip-api.com/json/";
  default_target := "https://example.net/"
|}.

(** [paris] with a key the handlers do not read. *)
Definition paris_with_zip : gmap string pyval := <["zip" := PStr "75001"]> paris.

(** A chain whose first entry is blank. *)
Definition blank_first_hop_request : Request := {|
  headers := <["X-Forwarded-For" := "  , 10.0.0.1"]> ∅;
  args := ∅;
  remote_addr := Some "10.0.0.1"
|}.

(** A lookup answer with a longitude and no latitude. *)
Definition no_latitude : gmap string pyval :=
  <["lon" := PFloat 2.35]> (<["country" := PStr "France"]> ∅).

Definition click_hit : hit := {|
  hit_endpoint := ClickEndpoint; hit_world := world_with (Some paris);
  hit_token := "promo"; hit_request := proxied_request
|}.

Definition pixel_hit : hit := {|
  hit_endpoint := ImageEndpoint; hit_world := world_with None;
  hit_token := "pixel"; hit_request := bare_request
|}.

Definition full_config : gmap string (gmap string string) :=
  <["storage" := <["visits_path" := "data/visits.json"]> ∅]>
  (<["tracking" :=
       <["ip_info_api" := "http://ip-api.com/json/"]>
       (<["default_target_url" := "https://example.com/landing"]> ∅)]>
   (<["server" := <["port" := "8000"]> ∅]> ∅)).

(** Case analysis on every condition of a cascade of [if]s. *)
Ltac split_conditions :=
  repeat match goal with
         | |- context [if ?b then _ else _] => destruct b
         end.

(** Splits a cascade into its cases, each test named and decided. *)
Ltac decide_cascade :=
  repeat match goal with
         | |- context [contains ?p ?l] =>
             let E := fresh "E" in destruct (contains p l) eqn:E
         end;
  cbn [orb andb negb];
  repeat split; intros;
  repeat match goal with
         | H : _ /\ _ |- _ => destruct H
         | H : _ \/ _ |- _ => destruct H
         | H : true = true -> _ |- _ => specialize (H eq_refl)
         end;
  try discriminate; try congruence; auto.

(** * Properties of the built-ins *)

Lemma split_not_nil (sep : ascii) (s : string) : split sep s <> [].
Proof.
  induction s as [|c s IH]; simpl; [discriminate|].
  destruct (Ascii.eqb c sep); [discriminate|].
  destruct (split sep s); discriminate.
Qed.

Lemma contains_empty_string (sub : string) :
  contains sub "" = true -> sub = "".
Proof.
  destruct sub as [|c sub]; [reflexivity|].
  simpl. discriminate.
Qed.

Lemma lower_nonempty (c : ascii) (s : string) :
  lower (String c s) = String (lower_char c) (lower s).
Proof. reflexivity. Qed.

Lemma truthy_false (o : option string) :
  truthy o = false <-> o = None \/ o = Some "".
Proof.
  destruct o as [[|c s]|]; simpl; split; intros Hx; try reflexivity;
    try discriminate; auto; destruct Hx as [Hx|Hx]; discriminate.
Qed.

Lemma or_else_present (c : ascii) (s d : string) :
  or_else (Some (String c s)) d = String c s.
Proof. reflexivity. Qed.

Lemma or_else_absent (d : string) :
  or_else None d = d /\ or_else (Some "") d = d.
Proof. split; reflexivity. Qed.

(** [try_except] never raises: an exception of the body becomes the
    handler's value. *)
Lemma try_except_raised {A : Type} (e : exn) (h : exn -> A) :
  try_except (Raised e) h = h e.
Proof. reflexivity. Qed.

(** ** What the string built-ins compute *)

Lemma append_cons (c : ascii) (s t : string) :
  String c s ++ t = String c (s ++ t).
Proof. reflexivity. Qed.

Lemma prefix_iff (p s : string) :
  String.prefix p s = true <-> exists post : string, s = p ++ post.
Proof.
  revert s. induction p as [|a p IH]; intros s.
  - destruct s; simpl; (split; [intros _; eexists; reflexivity | reflexivity]).
  - destruct s as [|b s]; simpl.
    + split; [discriminate | intros [post Hpost]; discriminate].
    + destruct (ascii_dec a b) as [<- | Hne].
      * rewrite IH. split; intros [post Hpost]; exists post.
        -- rewrite Hpost. reflexivity.
        -- injection Hpost as ->. reflexivity.
      * split; [discriminate | intros [post Hpost]].
        injection Hpost as <- _. congruence.
Qed.

Lemma contains_unfold (sub s : string) :
  contains sub s =
  String.prefix sub s || match s with "" => false | String _ s' => contains sub s' end.
Proof. destruct s; reflexivity. Qed.

(** [sub in s]: [s] is [sub] between two strings. *)
Lemma contains_iff (sub s : string) :
  contains sub s = true <-> exists pre post : string, s = pre ++ sub ++ post.
Proof.
  split.
  - induction s as [|c s IH]; rewrite contains_unfold, orb_true_iff.
    + intros [Hp | Hf]; [|discriminate].
      apply prefix_iff in Hp. destruct Hp as [post Hp]. exists "", post. exact Hp.
    + intros [Hp | Hin].
      * apply prefix_iff in Hp. destruct Hp as [post Hp]. exists "", post. exact Hp.
      * destruct (IH Hin) as (pre & post & ->). exists (String c pre), post. reflexivity.
  - intros (pre & post & ->). induction pre as [|c pre IH].
    + rewrite contains_unfold, orb_true_iff. left. apply prefix_iff.
      exists post. reflexivity.
    + rewrite contains_unfold, orb_true_iff. right. exact IH.
Qed.

Lemma contains_comma_cons (c : ascii) (s : string) :
  contains "," (String c s) = Ascii.eqb c "," || contains "," s.
Proof.
  rewrite contains_unfold. cbn [String.prefix].
  destruct (ascii_dec "," c) as [<- | Hne].
  - destruct s; reflexivity.
  - destruct (Ascii.eqb_spec c ","); [congruence | reflexivity].
Qed.

(** [s.split(",")[0]] is the first entry of a chain, and the whole
    string when there is no comma. *)
Lemma split_first_entry (s : string) :
  contains "," (item0 (split "," s)) = false /\
  (if contains "," s
   then exists rest : string, s = item0 (split "," s) ++ "," ++ rest
   else s = item0 (split "," s)).
Proof.
  induction s as [|c s [IHno IHcut]]; [split; reflexivity|].
  rewrite contains_comma_cons. cbn [split].
  destruct (Ascii.eqb_spec c ",") as [-> | Hne]; cbn [orb item0 hd].
  - split; [reflexivity|]. exists s. reflexivity.
  - destruct (split "," s) as [|h t] eqn:Hsplit; [destruct (split_not_nil _ _ Hsplit)|].
    cbn [item0 hd] in IHno, IHcut |- *. split.
    + rewrite contains_comma_cons, IHno.
      destruct (Ascii.eqb_spec c ","); [congruence | reflexivity].
    + destruct (contains "," s).
      * destruct IHcut as [rest ->]. exists rest. reflexivity.
      * rewrite <- IHcut. reflexivity.
Qed.

Lemma lstrip_spec (s : string) :
  (forall c : ascii, first_char (lstrip s) = Some c -> isspace c = false) /\
  exists l : string, s = l ++ lstrip s /\ every isspace l = true.
Proof.
  induction s as [|c s [IHfirst (l & IHeq & IHl)]].
  - split; [discriminate|]. exists "". split; reflexivity.
  - cbn [lstrip]. destruct (isspace c) eqn:Hc.
    + split; [exact IHfirst|]. exists (String c l). cbn [every]; rewrite ?append_cons.
      rewrite Hc, IHl, <- IHeq. split; reflexivity.
    + split; [intros c' Hc'; injection Hc' as <-; exact Hc|].
      exists "". split; reflexivity.
Qed.

Lemma rstrip_spec (s : string) :
  (forall c : ascii, last_char (rstrip s) = Some c -> isspace c = false) /\
  (rstrip s <> "" -> first_char (rstrip s) = first_char s) /\
  exists r : string, s = rstrip s ++ r /\ every isspace r = true.
Proof.
  induction s as [|c s (IHlast & IHfirst & r & IHeq & IHr)].
  - split; [discriminate|]. split; [reflexivity|]. exists "". split; reflexivity.
  - cbn [rstrip]. destruct (rstrip s) as [|c' t] eqn:Hrs.
    + change ("" ++ r) with r in IHeq. subst r.
      destruct (isspace c) eqn:Hc.
      * split; [discriminate|]. split; [congruence|].
        exists (String c s). cbn [every]. rewrite Hc, IHr. split; reflexivity.
      * split; [intros c0 Hc0; injection Hc0 as <-; exact Hc|].
        split; [reflexivity|]. exists s. split; [reflexivity | exact IHr].
    + split; [exact IHlast|]. split; [reflexivity|].
      exists r. rewrite append_cons, <- IHeq. split; [reflexivity | exact IHr].
Qed.

(** [s.strip()] is [s] trimmed of surrounding white space. *)
Lemma strip_trimmed (s : string) : trimmed s (strip s).
Proof.
  unfold trimmed, bare, strip.
  destruct (lstrip_spec s) as (Hfirst & l & Hl & Hlspace).
  destruct (rstrip_spec (lstrip s)) as (Hlast & Hsame & r & Hr & Hrspace).
  repeat split.
  - intros c Hc. apply Hfirst. rewrite <- Hsame; [exact Hc|].
    intros Hempty. rewrite Hempty in Hc. discriminate.
  - exact Hlast.
  - exists l, r. rewrite <- Hr. auto.
Qed.

(** Stripping what is already bare changes nothing. *)
Lemma strip_sample_bare : bare (strip "  203.0.113.5 ") /\ strip "203.0.113.5" = "203.0.113.5".
Proof. split; [apply strip_trimmed | reflexivity]. Qed.

Lemma lower_char_idempotent (c : ascii) : lower_char (lower_char c) = lower_char c.
Proof. destruct c as [[] [] [] [] [] [] [] []]; reflexivity. Qed.

Lemma lower_idempotent (s : string) : lower (lower s) = lower s.
Proof.
  induction s as [|c s IH]; [reflexivity|].
  cbn [lower]. rewrite lower_char_idempotent, IH. reflexivity.
Qed.

Lemma lower_app (s t : string) : lower (s ++ t) = lower s ++ lower t.
Proof.
  induction s as [|c s IH]; [reflexivity|].
  rewrite ?append_cons; cbn [lower]. rewrite IH. reflexivity.
Qed.

(** ** The built-ins on known values

    Each right-hand side is what CPython 3.11 answers. *)

Example lower_sample : lower "Mozilla/5.0 (X11; EDG)" = "mozilla/5.0 (x11; edg)".
Proof. reflexivity. Qed.

Example strip_sample :
  strip (String "009" " 203.0.113.5 " ++ String "010" "") = "203.0.113.5".
Proof. reflexivity. Qed.

Example split_sample :
  split "," "203.0.113.5, 10.0.0.1,," = ["203.0.113.5"; " 10.0.0.1"; ""; ""].
Proof. reflexivity. Qed.

Example contains_sample :
  contains "edg" "knowledge" = true /\ contains "" "" = true /\
  contains "edge" "edg" = false.
Proof. repeat split. Qed.

Example float_of_int_sample :
  float (PInt 9007199254740993) = Returned 9007199254740992%float /\
  float (PInt (10 ^ 400)) = Raised OverflowError /\
  float (PInt (2 ^ 1024 - 2 ^ 970 - 1)) = Returned 1.7976931348623157e308%float /\
  float (PInt (2 ^ 1024 - 2 ^ 970)) = Raised OverflowError.
Proof. repeat split; vm_compute; reflexivity. Qed.

Example float_of_other_sample :
  float PNone = Raised TypeError /\ float (PBool true) = Returned 1%float /\
  float (PList []) = Raised TypeError /\ float (PDict []) = Raised TypeError.
Proof. repeat split. Qed.

Example float_of_str_sample :
  float (PStr " 48.85 ") = Returned 48.85%float /\
  float (PStr "-1_000.5e-3") = Returned (-1.0005)%float /\
  float (PStr "1e400") = Returned infinity /\
  float (PStr "-Infinity") = Returned neg_infinity /\
  float (PStr "NaN") = Returned nan /\
  float (PStr "1e-400") = Returned 0%float /\
  float (PStr ".5") = Returned 0.5%float /\
  float (PStr "5.") = Returned 5%float.
Proof. repeat split; vm_compute; reflexivity. Qed.

Example float_of_str_rejects :
  float (PStr "") = Raised ValueError /\ float (PStr "east") = Raised ValueError /\
  float (PStr "1,5") = Raised ValueError /\ float (PStr "1e") = Raised ValueError /\
  float (PStr "1__0") = Raised ValueError /\ float (PStr "_1") = Raised ValueError /\
  float (PStr "0x10") = Raised ValueError /\ float (PStr ".") = Raised ValueError /\
  float (PStr "1 000") = Raised ValueError /\ float (PStr "infinit") = Raised ValueError.
Proof. repeat split. Qed.

Example float_repr_sample :
  float_repr 48.85 = "48.85" /\ float_repr 2.35 = "2.35" /\
  float_repr 1 = "1.0" /\ float_repr (-0) = "-0.0" /\
  float_repr 0.1 = "0.1" /\ float_repr (0.1 + 0.2) = "0.30000000000000004" /\
  float_repr 1e15 = "1000000000000000.0" /\ float_repr 1e16 = "1e+16" /\
  float_repr 0.0001 = "0.0001" /\ float_repr 0.00001 = "1e-05" /\
  float_repr 1e22 = "1e+22" /\ float_repr 1e23 = "1e+23" /\
  float_repr 5e-324 = "5e-324" /\
  float_repr 1.7976931348623157e308 = "1.7976931348623157e+308" /\
  float_repr 123456789012345678 = "1.2345678901234568e+17" /\
  float_repr infinity = "inf" /\ float_repr neg_infinity = "-inf" /\
  float_repr nan = "nan".
Proof. repeat split; vm_compute; reflexivity. Qed.

(** * The user-agent classifier *)

(** The classifier on a non-empty agent is the two cascades. *)
Lemma parse_nonempty (c : ascii) (s : string) :
  _parse_user_agent (Some (String c s)) =
  let ua_lower := lower (String c s) in
  {| browser :=
       if contains "edg" ua_lower then "Edge"
       else if contains "opr" ua_lower || contains "opera" ua_lower then "Opera"
       else if contains "chrome" ua_lower && contains "safari" ua_lower
               && negb (contains "edge" ua_lower) then "Chrome"
       else if contains "firefox" ua_lower then "Firefox"
       else if contains "safari" ua_lower && negb (contains "chrome" ua_lower) then "Safari"
       else "Other";
     os :=
       if contains "windows" ua_lower then "Windows"
       else if contains "android" ua_lower then "Android"
       else if contains "iphone" ua_lower || contains "ipad" ua_lower
               || contains "ios" ua_lower then "iOS"
       else if contains "mac os x" ua_lower || contains "macintosh" ua_lower then "macOS"
       else if contains "linux" ua_lower then "Linux"
       else "Other" |}.
Proof. reflexivity. Qed.

(** The closed set of categories: six browsers and six systems, or
    "Unknown" for both. *)
Lemma categories_closed (ua : option string) :
  In (browser (_parse_user_agent ua))
     ["Unknown"; "Edge"; "Opera"; "Chrome"; "Firefox"; "Safari"; "Other"] /\
  In (os (_parse_user_agent ua))
     ["Unknown"; "Windows"; "Android"; "iOS"; "macOS"; "Linux"; "Other"].
Proof.
  destruct ua as [[|c s]|]; try (split; left; reflexivity).
  rewrite parse_nonempty. cbv zeta. cbn [browser os].
  split; split_conditions; simpl; tauto.
Qed.

(** The Edge rule comes first: it decides as soon as its test holds. *)
Lemma edge_rule_first (ua : string) :
  contains "edg" (lower ua) = true ->
  browser (_parse_user_agent (Some ua)) = "Edge".
Proof.
  intros Hedg. destruct ua as [|c s].
  - apply contains_empty_string in Hedg. discriminate.
  - rewrite parse_nonempty. cbv zeta. cbn [browser].
    rewrite Hedg. reflexivity.
Qed.

(** C3. Whenever the lower-cased user agent contains "edg" (it is "edg"
    between two strings, which is when the test ["edg" in ua_lower]
    holds), the browser is "Edge", whatever else the string holds
    ("chrome", "safari", ...). *)
Theorem edge_marker_wins (ua : string) :
  (exists pre post : string, lower ua = pre ++ "edg" ++ post) ->
  contains "edg" (lower ua) = true /\
  browser (_parse_user_agent (Some ua)) = "Edge".
Proof.
  intros Hedg. apply contains_iff in Hedg. split; [exact Hedg|].
  apply edge_rule_first. exact Hedg.
Qed.

Lemma edge_marker_wins_sample :
  contains "chrome" (lower edge_agent) = true /\
  contains "safari" (lower edge_agent) = true /\
  contains "edg" (lower edge_agent) = true /\
  browser (_parse_user_agent (Some edge_agent)) = "Edge".
Proof.
  split; [reflexivity|]. split; [reflexivity|].
  apply (edge_marker_wins edge_agent).
  exists "mozilla/5.0 (windows nt 10.0; win64; x64) applewebkit/537.36 (khtml, like gecko) chrome/120.0.0.0 safari/537.36 ",
    "/120.0.0.0".
  reflexivity.
Defined.

Lemma matches_none_browser (s : string) :
  matches_none browser_patterns s = true ->
  contains "edg" (lower s) = false /\ contains "opr" (lower s) = false /\
  contains "opera" (lower s) = false /\ contains "chrome" (lower s) = false /\
  contains "safari" (lower s) = false /\ contains "firefox" (lower s) = false.
Proof.
  unfold matches_none, browser_patterns. cbn [forallb].
  rewrite !andb_true_iff, !negb_true_iff. tauto.
Qed.

Lemma matches_none_os (s : string) :
  matches_none os_patterns s = true ->
  contains "windows" (lower s) = false /\ contains "android" (lower s) = false /\
  contains "iphone" (lower s) = false /\ contains "ipad" (lower s) = false /\
  contains "ios" (lower s) = false /\ contains "mac os x" (lower s) = false /\
  contains "macintosh" (lower s) = false /\ contains "linux" (lower s) = false.
Proof.
  unfold matches_none, os_patterns. cbn [forallb].
  rewrite !andb_true_iff, !negb_true_iff. tauto.
Qed.

(** C4. An absent or empty user agent gives exactly
    [{browser: "Unknown", os: "Unknown"}].  A non-empty one never gives
    "Unknown" for either key, and gives "Other" for the key none of whose
    patterns it contains. *)
Theorem unknown_means_no_agent (ua : option string) :
  (ua = None \/ ua = Some "" ->
   _parse_user_agent ua = {| browser := "Unknown"; os := "Unknown" |}) /\
  (forall s : string, ua = Some s -> s <> "" ->
   browser (_parse_user_agent ua) <> "Unknown" /\
   os (_parse_user_agent ua) <> "Unknown" /\
   (matches_none browser_patterns s = true ->
    browser (_parse_user_agent ua) = "Other") /\
   (matches_none os_patterns s = true ->
    os (_parse_user_agent ua) = "Other")).
Proof.
  split.
  - intros [-> | ->]; reflexivity.
  - intros s -> Hs. destruct s as [|c s]; [congruence|].
    rewrite parse_nonempty. cbv zeta. cbn [browser os].
    repeat split.
    + split_conditions; discriminate.
    + split_conditions; discriminate.
    + intros Hn. apply matches_none_browser in Hn.
      destruct Hn as (-> & -> & -> & -> & -> & ->). reflexivity.
    + intros Hn. apply matches_none_os in Hn.
      destruct Hn as (-> & -> & -> & -> & -> & -> & -> & ->). reflexivity.
Qed.

Lemma unknown_means_no_agent_sample :
  _parse_user_agent (Some "") = {| browser := "Unknown"; os := "Unknown" |} /\
  _parse_user_agent None = {| browser := "Unknown"; os := "Unknown" |} /\
  browser (_parse_user_agent (Some plain_agent)) = "Other" /\
  os (_parse_user_agent (Some plain_agent)) = "Other".
Proof.
  split; [exact (proj1 (unknown_means_no_agent (Some "")) (or_intror eq_refl))|].
  split; [exact (proj1 (unknown_means_no_agent None) (or_introl eq_refl))|].
  pose proof (proj2 (unknown_means_no_agent (Some plain_agent)) plain_agent eq_refl)
    as Hother.
  split; apply Hother; (discriminate || reflexivity).
Defined.

(** * The client address *)

(** Both endpoints build the same record (the two texts differ in one
    comment only). *)
Lemma image_tracker_record_eq (cfg : Config) (w : World) (token : string) (rq : Request) :
  image_tracker_record cfg w token rq = track_click_record cfg w token rq.
Proof. reflexivity. Qed.

Lemma visit_record_eq (ep : endpoint) (cfg : Config) (w : World) (token : string)
    (rq : Request) :
  visit_record ep cfg w token rq = track_click_record cfg w token rq.
Proof. destruct ep; reflexivity. Qed.

(** Lines 67-69 as one case analysis: the forwarding header if the
    request has one, the peer address otherwise, cut at its first comma and
    stripped when it has a comma. *)
Lemma resolved_ip (ep : endpoint) (cfg : Config) (w : World) (token : string)
    (rq : Request) :
  Visit.ip (visit_record ep cfg w token rq) =
  match
    match headers rq !! "X-Forwarded-For" with
    | Some v => Some v
    | None => remote_addr rq
    end
  with
  | Some s => Some (if contains "," s then strip (item0 (split "," s)) else s)
  | None => None
  end.
Proof.
  rewrite visit_record_eq. unfold track_click_record. cbn [Visit.ip].
  destruct (headers rq !! "X-Forwarded-For") as [v|]; [|destruct (remote_addr rq) as [v|]];
    try reflexivity.
  all: destruct v as [|c v]; [reflexivity|];
    cbn [truthy andb]; destruct (contains "," (String c v)); reflexivity.
Qed.

(** C5. A forwarding header that holds a comma-separated chain resolves
    to its first entry (what stands before the first comma) trimmed of
    surrounding white space.  Without a forwarding header the peer address
    takes the header's place: it is the resolved address as it stands
    (when it has no comma, as no IP address has; the same first-entry rule
    applies to it otherwise), and the resolved address is null when there
    is none. *)
Theorem forwarded_chain_first_hop (ep : endpoint) (cfg : Config) (w : World)
    (token : string) (rq : Request) :
  (forall h : string,
     headers rq !! "X-Forwarded-For" = Some h -> contains "," h = true ->
     Visit.ip (visit_record ep cfg w token rq) = Some (strip (item0 (split "," h))) /\
     first_entry h (item0 (split "," h)) /\
     trimmed (item0 (split "," h)) (strip (item0 (split "," h)))) /\
  (headers rq !! "X-Forwarded-For" = None ->
   Visit.ip (visit_record ep cfg w token rq) =
   match remote_addr rq with
   | Some a => Some (if contains "," a then strip (item0 (split "," a)) else a)
   | None => None
   end).
Proof.
  rewrite resolved_ip. split.
  - intros h -> Hcomma. rewrite Hcomma. split; [reflexivity|].
    split; [|apply strip_trimmed].
    destruct (split_first_entry h) as [Hentry Hcut]. rewrite Hcomma in Hcut.
    split; assumption.
  - intros ->. reflexivity.
Qed.

Lemma forwarded_chain_first_hop_sample :
  (Visit.ip (visit_record ClickEndpoint sample_config (world_with None) "promo"
               proxied_request) = Some "203.0.113.5" /\
   first_entry "203.0.113.5, 10.0.0.1" "203.0.113.5" /\
   trimmed "203.0.113.5" "203.0.113.5") /\
  Visit.ip (visit_record ClickEndpoint sample_config (world_with None) "promo"
              bare_request) = Some "198.51.100.7".
Proof.
  split.
  - exact (proj1 (forwarded_chain_first_hop ClickEndpoint sample_config
                    (world_with None) "promo" proxied_request)
             "203.0.113.5, 10.0.0.1" eq_refl eq_refl).
  - exact (proj2 (forwarded_chain_first_hop ClickEndpoint sample_config
                    (world_with None) "promo" bare_request) eq_refl).
Defined.

(** C10. A forwarding header without a comma is the resolved address
    character for character: white space around it stays. *)
Theorem single_hop_verbatim (ep : endpoint) (cfg : Config) (w : World)
    (token : string) (rq : Request) (h : string) :
  headers rq !! "X-Forwarded-For" = Some h ->
  contains "," h = false ->
  Visit.ip (visit_record ep cfg w token rq) = Some h.
Proof.
  intros Hh Hcomma. rewrite resolved_ip, Hh, Hcomma. reflexivity.
Qed.

Lemma single_hop_verbatim_sample :
  Visit.ip (visit_record ImageEndpoint sample_config (world_with None) "pixel"
              padded_request) = Some " 203.0.113.5 " /\
  strip " 203.0.113.5 " = "203.0.113.5".
Proof.
  split.
  - apply (single_hop_verbatim ImageEndpoint sample_config (world_with None) "pixel"
             padded_request " 203.0.113.5 "); reflexivity.
  - reflexivity.
Defined.

(** * The map link *)

(** Lines 74-84 (and 136-145) in terms of the record's own [lat] and
    [lon]. *)
Lemma google_maps_url_eq (ep : endpoint) (cfg : Config) (w : World) (token : string)
    (rq : Request) :
  Visit.google_maps_url (visit_record ep cfg w token rq) =
  if isinstance_int_float (Visit.lat (visit_record ep cfg w token rq))
     || isinstance_int_float (Visit.lon (visit_record ep cfg w token rq))
  then try_except
         (bind (float (Visit.lat (visit_record ep cfg w token rq))) (fun lat_f =>
          bind (float (Visit.lon (visit_record ep cfg w token rq))) (fun lon_f =>
          Returned (Some (maps_link lat_f lon_f)))))
         (fun _ => None)
  else None.
Proof. rewrite visit_record_eq. reflexivity. Qed.

(** Whatever the lookup answers, the record carries its "lat" and "lon"
    entries as they are. *)
Lemma record_coordinates (ep : endpoint) (cfg : Config) (w : World) (token : string)
    (rq : Request) :
  let geo := default ∅ (geo_lookup w (Visit.ip (visit_record ep cfg w token rq)) (ip_api cfg)) in
  Visit.lat (visit_record ep cfg w token rq) = dict_get geo "lat" /\
  Visit.lon (visit_record ep cfg w token rq) = dict_get geo "lon".
Proof. rewrite visit_record_eq. split; reflexivity. Qed.

(** C1, as the code has it. The map link is present exactly when at
    least one of [lat], [lon] is of a numeric type ([int], [bool] or
    [float]) and [float()] succeeds on both; it is then the fixed template
    filled with the two converted values as Python writes floats.  The
    values need not be finite, and need not both be numbers. *)
Theorem google_maps_url_present_iff (ep : endpoint) (cfg : Config) (w : World)
    (token : string) (rq : Request) (url : string) :
  Visit.google_maps_url (visit_record ep cfg w token rq) = Some url <->
  (isinstance_int_float (Visit.lat (visit_record ep cfg w token rq))
   || isinstance_int_float (Visit.lon (visit_record ep cfg w token rq)) = true) /\
  exists lat_f lon_f : PrimFloat.float,
    float (Visit.lat (visit_record ep cfg w token rq)) = Returned lat_f /\
    float (Visit.lon (visit_record ep cfg w token rq)) = Returned lon_f /\
    url = "https://www.google.com/maps?q=" ++ float_repr lat_f ++ "," ++ float_repr lon_f.
Proof.
  rewrite google_maps_url_eq.
  destruct (isinstance_int_float _ || isinstance_int_float _).
  - destruct (float (Visit.lat _)) as [a|e] eqn:Hlat;
      [destruct (float (Visit.lon _)) as [b|e] eqn:Hlon|]; cbn [bind try_except].
    + split.
      * intros Hurl. injection Hurl as <-. split; [reflexivity|].
        exists a, b. repeat split; reflexivity.
      * intros [_ (a' & b' & Ha & Hb & ->)].
        injection Ha as <-. injection Hb as <-. reflexivity.
    + split; [discriminate|]. intros [_ (a' & b' & _ & Hb & _)]. discriminate.
    + split; [discriminate|]. intros [_ (a' & b' & Ha & _)]. discriminate.
  - split; [discriminate|]. intros [Hnum _]. discriminate.
Qed.

(** The sentence of the specification fails as written: an infinite
    latitude is not a finite number, and the record still has a link. *)
Lemma infinite_latitude_has_link :
  Visit.google_maps_url
    (visit_record ClickEndpoint sample_config (world_with (Some off_the_map)) "promo"
       bare_request)
  = Some "https://www.google.com/maps?q=inf,2.35" /\
  finite_number
    (Visit.lat (visit_record ClickEndpoint sample_config (world_with (Some off_the_map))
                  "promo" bare_request))
  = false.
Proof. split; vm_compute; reflexivity. Qed.

(** It fails in the other direction as well: two numeric strings parse
    as finite numbers, and the record has no link. *)
Lemma quoted_coordinates_have_no_link :
  Visit.google_maps_url
    (visit_record ClickEndpoint sample_config (world_with (Some quoted_coordinates))
       "promo" bare_request)
  = None /\
  finite_number (PStr "48.85") = true /\ finite_number (PStr "2.35") = true.
Proof. repeat split; vm_compute; reflexivity. Qed.

(** What is left of the sentence as written: two finite numbers of which
    the first is of a numeric type give a link, and a missing coordinate
    gives none. *)
Lemma finite_numbers_have_link (ep : endpoint) (cfg : Config) (w : World)
    (token : string) (rq : Request) :
  isinstance_int_float (Visit.lat (visit_record ep cfg w token rq)) = true ->
  finite_number (Visit.lat (visit_record ep cfg w token rq)) = true ->
  finite_number (Visit.lon (visit_record ep cfg w token rq)) = true ->
  exists lat_f lon_f : PrimFloat.float,
    float (Visit.lat (visit_record ep cfg w token rq)) = Returned lat_f /\
    float (Visit.lon (visit_record ep cfg w token rq)) = Returned lon_f /\
    Visit.google_maps_url (visit_record ep cfg w token rq)
    = Some (maps_link lat_f lon_f).
Proof.
  unfold finite_number. intros Hnum Hlat Hlon.
  destruct (float (Visit.lat _)) as [a|] eqn:Ha; [|discriminate].
  destruct (float (Visit.lon _)) as [b|] eqn:Hb; [|discriminate].
  exists a, b. repeat split.
  rewrite google_maps_url_eq, Hnum, Ha, Hb. reflexivity.
Qed.

Lemma missing_coordinate_has_no_link (ep : endpoint) (cfg : Config) (w : World)
    (token : string) (rq : Request) :
  Visit.lat (visit_record ep cfg w token rq) = PNone \/
  Visit.lon (visit_record ep cfg w token rq) = PNone ->
  Visit.google_maps_url (visit_record ep cfg w token rq) = None.
Proof.
  intros Hmissing. rewrite google_maps_url_eq.
  destruct Hmissing as [-> | ->].
  - destruct (_ || _); reflexivity.
  - destruct (_ || _); [|reflexivity].
    destruct (float (Visit.lat _)); reflexivity.
Qed.

(** Scenario of section 8: [{lat: 48.85, lon: 2.35}]. *)
Lemma paris_link :
  Visit.google_maps_url
    (visit_record ClickEndpoint sample_config (world_with (Some paris)) "promo"
       bare_request)
  = Some "https://www.google.com/maps?q=48.85,2.35".
Proof. vm_compute. reflexivity. Qed.

(** Integers and booleans are numeric types too. *)
Lemma integer_coordinates_link :
  Visit.google_maps_url
    (visit_record ImageEndpoint sample_config
       (world_with (Some (<["lat" := PInt 48]> (<["lon" := PBool true]> ∅))))
       "pixel" bare_request)
  = Some "https://www.google.com/maps?q=48.0,1.0".
Proof. vm_compute. reflexivity. Qed.

(** * Running a handler *)

(** The target [track_click] redirects to is the chosen one. *)
Lemma or_else_next (cfg : Config) (rq : Request) :
  or_else (args rq !! "next") (default_target cfg) = chosen_target cfg rq.
Proof. reflexivity. Qed.

Lemma redirect_accepts (location : string) :
  has_newline location = false -> Flask.redirect location = Returned (redirect location).
Proof. unfold Flask.redirect. intros ->. reflexivity. Qed.

Lemma redirect_refuses (location : string) :
  has_newline location = true -> Flask.redirect location = Raised ValueError.
Proof. unfold Flask.redirect. intros ->. reflexivity. Qed.

(** A handler run, step by step: it raises what loading or saving
    raises; once the collection is saved, [track_click] ends as
    [redirect] does on its target and [image_tracker] renders its page;
    the disk is the one [save_visits] leaves. *)
Lemma handle_run `{Storage disk} (ep : endpoint) (cfg : Config) (w : World)
    (token : string) (rq : Request) (d : disk) :
  handle ep cfg w token rq d =
  match load_visits (visits_path cfg) d with
  | Raised e => (Raised e, d)
  | Returned visits =>
      match save_visits (visits_path cfg)
              (visits ++ [visit_record ep cfg w token rq])%list d with
      | (Returned _, d') =>
          (match ep with
           | ClickEndpoint => Flask.redirect (chosen_target cfg rq)
           | ImageEndpoint =>
               Returned
                 (render_template "image_page.html"
                    (or_else (args rq !! "src")
                       "https://via.placeholder.com/800x500.png?text=Image"))
           end, d')
      | (Raised e, d') => (Raised e, d')
      end
  end.
Proof.
  destruct ep; cbn [handle visit_record];
    unfold track_click, image_tracker, io_bind, io_load, io_save, io_ret, io_lift;
    rewrite ?or_else_next;
    destruct (load_visits (visits_path cfg) d) as [visits|e]; try reflexivity;
    match goal with
    | |- context [save_visits ?p ?v ?d] => destruct (save_visits p v d) as [[u|e] d']
    end; reflexivity.
Qed.

(** With storage working and, for a click, a target that [redirect]
    accepts, the request is answered, by a response of the endpoint's
    kind, on the disk the save left. *)
Lemma handle_completes `{Storage disk} (ep : endpoint) (cfg : Config) (w : World)
    (token : string) (rq : Request) (d d' : disk) (visits : list Visit.t) :
  load_visits (visits_path cfg) d = Returned visits ->
  save_visits (visits_path cfg) (visits ++ [visit_record ep cfg w token rq])%list d
  = (Returned tt, d') ->
  (ep = ClickEndpoint -> has_newline (chosen_target cfg rq) = false) ->
  exists resp : response,
    handle ep cfg w token rq d = (Returned resp, d') /\ response_of ep resp = true.
Proof.
  intros Hload Hsave Htarget. rewrite handle_run, Hload, Hsave.
  destruct ep.
  - rewrite (redirect_accepts _ (Htarget eq_refl)).
    eexists. split; reflexivity.
  - eexists. split; reflexivity.
Qed.

(** C2. The coercion is attempted only when [lat] or [lon] is of a
    numeric type: when neither is, the link is null whatever [float()]
    would say.  When [float()] raises on either value, the link is null
    and nothing is raised by it: the request is answered as usual whenever
    the steps after it succeed, that is storage works and, for a click,
    [redirect] accepts the target (no carriage return or line feed in
    it). *)
Theorem coercion_failure_is_silent `{Storage disk} (ep : endpoint) (cfg : Config)
    (w : World) (token : string) (rq : Request) (d d' : disk)
    (visits : list Visit.t) :
  (isinstance_int_float (Visit.lat (visit_record ep cfg w token rq)) = false /\
   isinstance_int_float (Visit.lon (visit_record ep cfg w token rq)) = false) \/
  (exists e : exn, float (Visit.lat (visit_record ep cfg w token rq)) = Raised e) \/
  (exists e : exn, float (Visit.lon (visit_record ep cfg w token rq)) = Raised e) ->
  load_visits (visits_path cfg) d = Returned visits ->
  save_visits (visits_path cfg) (visits ++ [visit_record ep cfg w token rq])%list d
  = (Returned tt, d') ->
  (ep = ClickEndpoint -> has_newline (chosen_target cfg rq) = false) ->
  Visit.google_maps_url (visit_record ep cfg w token rq) = None /\
  exists resp : response,
    handle ep cfg w token rq d = (Returned resp, d') /\ response_of ep resp = true.
Proof.
  intros Hfail Hload Hsave Htarget.
  split; [|eapply handle_completes; eassumption].
  rewrite google_maps_url_eq.
  destruct Hfail as [[-> ->] | [[e ->] | [e Hlon]]]; [reflexivity| |].
  - destruct (_ || _); reflexivity.
  - rewrite Hlon. destruct (_ || _); [|reflexivity].
    destruct (float (Visit.lat _)); reflexivity.
Qed.

Lemma coercion_failure_is_silent_sample :
  Visit.google_maps_url
    (visit_record ClickEndpoint sample_config (world_with (Some half_numeric)) "promo"
       proxied_request) = None /\
  exists resp : response,
    handle ClickEndpoint sample_config (world_with (Some half_numeric)) "promo"
      proxied_request empty_disk
    = (Returned resp,
       {| files :=
            <["data/visits.json" :=
                [visit_record ClickEndpoint sample_config
                   (world_with (Some half_numeric)) "promo" proxied_request]]> ∅;
          read_only := false |}) /\
    response_of ClickEndpoint resp = true.
Proof.
  apply (coercion_failure_is_silent ClickEndpoint sample_config
           (world_with (Some half_numeric)) "promo" proxied_request empty_disk _ []).
  - right. right. exists ValueError. reflexivity.
  - reflexivity.
  - reflexivity.
  - intros _. reflexivity.
Defined.

(** C6. When the lookup answers null (what it does on failure), every
    geographic key of the record and the map link are null, and the
    request is answered whenever the steps after the lookup succeed, that
    is storage works and, for a click, [redirect] accepts the target (no
    carriage return or line feed in it): a redirect from [/t/<token>], the
    image page from [/img/<token>]. *)
Theorem lookup_failure_degrades `{Storage disk} (ep : endpoint) (cfg : Config)
    (w : World) (token : string) (rq : Request) (d d' : disk)
    (visits : list Visit.t) :
  geo_lookup w (Visit.ip (visit_record ep cfg w token rq)) (ip_api cfg) = None ->
  load_visits (visits_path cfg) d = Returned visits ->
  save_visits (visits_path cfg) (visits ++ [visit_record ep cfg w token rq])%list d
  = (Returned tt, d') ->
  (ep = ClickEndpoint -> has_newline (chosen_target cfg rq) = false) ->
  (Visit.country (visit_record ep cfg w token rq) = PNone /\
   Visit.region (visit_record ep cfg w token rq) = PNone /\
   Visit.city (visit_record ep cfg w token rq) = PNone /\
   Visit.isp (visit_record ep cfg w token rq) = PNone /\
   Visit.lat (visit_record ep cfg w token rq) = PNone /\
   Visit.lon (visit_record ep cfg w token rq) = PNone /\
   Visit.google_maps_url (visit_record ep cfg w token rq) = None) /\
  exists resp : response,
    handle ep cfg w token rq d = (Returned resp, d') /\ response_of ep resp = true.
Proof.
  intros Hgeo Hload Hsave Htarget.
  split; [|eapply handle_completes; eassumption].
  assert (Hlat : Visit.lat (visit_record ep cfg w token rq) = PNone).
  { rewrite (proj1 (record_coordinates ep cfg w token rq)), Hgeo. reflexivity. }
  assert (Hlon : Visit.lon (visit_record ep cfg w token rq) = PNone).
  { rewrite (proj2 (record_coordinates ep cfg w token rq)), Hgeo. reflexivity. }
  rewrite google_maps_url_eq, Hlat, Hlon.
  rewrite visit_record_eq in Hgeo |- *.
  unfold track_click_record in Hgeo |- *.
  cbn [Visit.ip Visit.country Visit.region Visit.city Visit.isp] in Hgeo |- *.
  rewrite Hgeo. repeat split; reflexivity.
Qed.

Lemma lookup_failure_degrades_sample :
  (Visit.country (visit_record ClickEndpoint sample_config (world_with None) "promo"
                    bare_request) = PNone /\
   Visit.region (visit_record ClickEndpoint sample_config (world_with None) "promo"
                   bare_request) = PNone /\
   Visit.city (visit_record ClickEndpoint sample_config (world_with None) "promo"
                 bare_request) = PNone /\
   Visit.isp (visit_record ClickEndpoint sample_config (world_with None) "promo"
                bare_request) = PNone /\
   Visit.lat (visit_record ClickEndpoint sample_config (world_with None) "promo"
                bare_request) = PNone /\
   Visit.lon (visit_record ClickEndpoint sample_config (world_with None) "promo"
                bare_request) = PNone /\
   Visit.google_maps_url (visit_record ClickEndpoint sample_config (world_with None)
                            "promo" bare_request) = None) /\
  exists resp : response,
    handle ClickEndpoint sample_config (world_with None) "promo" bare_request empty_disk
    = (Returned resp,
       {| files :=
            <["data/visits.json" :=
                [visit_record ClickEndpoint sample_config (world_with None) "promo"
                   bare_request]]> ∅;
          read_only := false |}) /\
    response_of ClickEndpoint resp = true.
Proof.
  apply (lookup_failure_degrades ClickEndpoint sample_config (world_with None) "promo"
           bare_request empty_disk _ []); reflexivity.
Defined.

(** * Persistence *)

(** The in-memory disk honours the contract. *)
Lemma mem_storage_contract : StorageContract mem_disk.
Proof.
  constructor. intros path visits d d'. cbn [save_visits load_visits mem_storage].
  destruct (read_only d); [discriminate|].
  intros Hsave. injection Hsave as <-. cbn [files].
  rewrite lookup_insert_eq. reflexivity.
Qed.

(** A handler that returns has loaded the collection and saved it with
    its record at the end, and [redirect] has accepted the target of a
    click; and the other way round. *)
Lemma handle_returns_iff `{Storage disk} (ep : endpoint) (cfg : Config) (w : World)
    (token : string) (rq : Request) (d d' : disk) (resp : response) :
  handle ep cfg w token rq d = (Returned resp, d') <->
  exists visits : list Visit.t,
    load_visits (visits_path cfg) d = Returned visits /\
    save_visits (visits_path cfg) (visits ++ [visit_record ep cfg w token rq])%list d
    = (Returned tt, d') /\
    match ep with
    | ClickEndpoint =>
        has_newline (chosen_target cfg rq) = false /\
        resp = redirect (chosen_target cfg rq)
    | ImageEndpoint =>
        resp = render_template "image_page.html"
                 (or_else (args rq !! "src")
                    "https://via.placeholder.com/800x500.png?text=Image")
    end.
Proof.
  rewrite handle_run. split.
  - destruct (load_visits (visits_path cfg) d) as [visits|e]; [|discriminate].
    destruct (save_visits _ _ d) as [[[]|e] d1] eqn:Hsave; [|discriminate].
    destruct ep.
    + unfold Flask.redirect.
      destruct (has_newline (chosen_target cfg rq)) eqn:Hnl; [discriminate|].
      intros Hrun. injection Hrun as <- <-. exists visits. auto.
    + intros Hrun. injection Hrun as <- <-. exists visits. auto.
  - intros (visits & -> & -> & Hresp). destruct ep.
    + destruct Hresp as [Hnl ->]. rewrite (redirect_accepts _ Hnl). reflexivity.
    + rewrite Hresp. reflexivity.
Qed.

(** One recording: under the contract, the collection after it is the
    collection before it with the new record at the end. *)
Lemma recording_appends_one `{StorageContract disk} (ep : endpoint) (cfg : Config)
    (w : World) (token : string) (rq : Request) (d d' : disk) (resp : response) :
  handle ep cfg w token rq d = (Returned resp, d') ->
  exists visits : list Visit.t,
    load_visits (visits_path cfg) d = Returned visits /\
    load_visits (visits_path cfg) d'
    = Returned (visits ++ [visit_record ep cfg w token rq])%list.
Proof.
  intros Hrun. apply handle_returns_iff in Hrun.
  destruct Hrun as (visits & Hload & Hsave & _).
  exists visits. split; [assumption|].
  eapply load_after_save. eassumption.
Qed.

Lemma serve_all_cons `{Storage disk} (cfg : Config) (h : hit) (rest : list hit)
    (d : disk) :
  serve_all cfg (h :: rest) d =
  let run := handle (hit_endpoint h) cfg (hit_world h) (hit_token h) (hit_request h) d in
  (fst run :: fst (serve_all cfg rest (snd run)), snd (serve_all cfg rest (snd run))).
Proof.
  cbn [serve_all].
  destruct (handle _ cfg _ _ _ d) as [o d1]. cbv zeta. cbn [fst snd].
  destruct (serve_all cfg rest d1) as [others d2]. reflexivity.
Qed.

(** C7. Serial recordings append: when the collection holds [stored] and
    N requests are served one after the other, all of them answered, the
    collection then holds [stored] followed by the N records in the order
    of the calls; nothing stored before has changed, and the length has
    grown by N (from the empty collection: exactly N records). *)
Theorem serial_recordings_append `{StorageContract disk} (cfg : Config)
    (hits : list hit) (d0 : disk) (stored : list Visit.t) :
  load_visits (visits_path cfg) d0 = Returned stored ->
  forallb is_returned (fst (serve_all cfg hits d0)) = true ->
  load_visits (visits_path cfg) (snd (serve_all cfg hits d0))
  = Returned (stored ++ List.map (hit_record cfg) hits)%list /\
  length (stored ++ List.map (hit_record cfg) hits)%list
  = (length stored + length hits)%nat.
Proof.
  intros Hload Hall. split; [|rewrite length_app, length_map; reflexivity].
  revert d0 stored Hload Hall.
  induction hits as [|h rest IH]; intros d0 stored Hload Hall.
  - cbn [serve_all snd List.map]. rewrite app_nil_r. exact Hload.
  - rewrite serve_all_cons in Hall |- *. cbv zeta in Hall |- *.
    cbn [fst snd forallb] in Hall |- *.
    apply andb_true_iff in Hall. destruct Hall as [Hfirst Hrest].
    destruct (handle (hit_endpoint h) cfg (hit_world h) (hit_token h) (hit_request h) d0)
      as [[resp|e] d1] eqn:Hrun; [|discriminate].
    apply recording_appends_one in Hrun.
    destruct Hrun as (visits & Hbefore & Hafter).
    rewrite Hload in Hbefore. injection Hbefore as <-.
    cbn [fst snd] in Hrest |- *.
    rewrite (IH d1 _ Hafter Hrest).
    cbn [List.map]. rewrite <- app_assoc. reflexivity.
Qed.

Lemma serial_recordings_append_sample :
  load_visits (visits_path sample_config) (snd (serve_all sample_config two_hits empty_disk))
  = Returned ([] ++ List.map (hit_record sample_config) two_hits)%list /\
  length ([] ++ List.map (hit_record sample_config) two_hits)%list
  = (length (@nil Visit.t) + length two_hits)%nat.
Proof.
  apply (@serial_recordings_append mem_disk mem_storage mem_storage_contract
           sample_config two_hits empty_disk []); reflexivity.
Defined.

(** C8, as the code has it. [track_click] saves the collection it loaded
    with its one record at the end, whatever the query arguments are, and
    only then calls [redirect] on the target: [next] when that argument is
    present and not empty, the configured default target when it is absent
    or empty.  It answers exactly when loading and saving succeed and the
    target holds no carriage return or line feed, and the answer is the
    redirect to the target; on a target with one, the record is saved and
    [redirect] raises [ValueError]. *)
Theorem track_click_records_then_redirects `{Storage disk} (cfg : Config) (w : World)
    (token : string) (rq : Request) (d d' : disk) (resp : response) :
  (track_click cfg w token rq d = (Returned resp, d') <->
   exists visits : list Visit.t,
     load_visits (visits_path cfg) d = Returned visits /\
     save_visits (visits_path cfg) (visits ++ [track_click_record cfg w token rq])%list d
     = (Returned tt, d') /\
     has_newline (chosen_target cfg rq) = false /\
     resp = redirect (chosen_target cfg rq)) /\
  (forall visits : list Visit.t,
     load_visits (visits_path cfg) d = Returned visits ->
     save_visits (visits_path cfg) (visits ++ [track_click_record cfg w token rq])%list d
     = (Returned tt, d') ->
     has_newline (chosen_target cfg rq) = true ->
     track_click cfg w token rq d = (Raised ValueError, d')).
Proof.
  change (track_click cfg w token rq) with (handle ClickEndpoint cfg w token rq).
  split.
  - rewrite handle_returns_iff. cbn [visit_record]. reflexivity.
  - intros visits Hload Hsave Hnl. rewrite handle_run. cbn [visit_record].
    rewrite Hload, Hsave, (redirect_refuses _ Hnl). reflexivity.
Qed.

(** A target with a line feed: the record is on the disk, and the
    request ends in [ValueError]. *)
Lemma track_click_records_then_redirects_sample :
  has_newline (chosen_target sample_config newline_next_request) = true /\
  track_click sample_config (world_with None) "promo" newline_next_request empty_disk
  = (Raised ValueError,
     {| files :=
          <["data/visits.json" :=
              [track_click_record sample_config (world_with None) "promo"
                 newline_next_request]]> ∅;
        read_only := false |}).
Proof.
  split; [reflexivity|].
  apply (proj2 (track_click_records_then_redirects sample_config (world_with None)
                  "promo" newline_next_request empty_disk _
                  (redirect "https://example.com/landing")) []);
    reflexivity.
Defined.

(** The sentence of the specification fails as written: [next] is
    supplied, empty, and the redirect goes to the default target, not to
    [next]. *)
Lemma blank_next_goes_to_default :
  args blank_next_request !! "next" = Some "" /\
  fst (track_click sample_config (world_with None) "promo" blank_next_request empty_disk)
  = Returned (redirect "https://example.com/landing") /\
  default_target sample_config = "https://example.com/landing".
Proof. repeat split; vm_compute; reflexivity. Qed.

(** A supplied target is followed, and the record is on the disk. *)
Lemma supplied_next_is_followed :
  track_click sample_config (world_with (Some paris)) "promo" proxied_request empty_disk
  = (Returned (redirect "https://example.org/article"),
     {| files :=
          <["data/visits.json" :=
              [track_click_record sample_config (world_with (Some paris)) "promo"
                 proxied_request]]> ∅;
        read_only := false |}).
Proof. reflexivity. Qed.

(** A storage failure is not recovered: it is what the handler raises,
    and no response is produced. *)
Lemma storage_failure_surfaces :
  track_click sample_config (world_with (Some paris)) "promo" proxied_request
    {| files := ∅; read_only := true |}
  = (Raised OSError, {| files := ∅; read_only := true |}).
Proof. reflexivity. Qed.

(** C9. On the same input the two endpoints build the same record and
    leave the same disk, whatever the storage collaborator is: both load,
    append that record and save.  A storage failure ends both the same
    way; they differ in the last step only, where [image_tracker] renders
    its page and [track_click] calls [redirect], so that they end the same
    way whenever [redirect] accepts the target. *)
Theorem endpoints_share_pipeline `{Storage disk} (cfg : Config) (w : World)
    (token : string) (rq : Request) (d : disk) :
  track_click_record cfg w token rq = image_tracker_record cfg w token rq /\
  snd (track_click cfg w token rq d) = snd (image_tracker cfg w token rq d) /\
  (forall e : exn,
     fst (image_tracker cfg w token rq d) = Raised e ->
     fst (track_click cfg w token rq d) = Raised e) /\
  (has_newline (chosen_target cfg rq) = false ->
   completion (fst (track_click cfg w token rq d))
   = completion (fst (image_tracker cfg w token rq d))).
Proof.
  split; [symmetry; apply image_tracker_record_eq|].
  change (track_click cfg w token rq) with (handle ClickEndpoint cfg w token rq).
  change (image_tracker cfg w token rq) with (handle ImageEndpoint cfg w token rq).
  rewrite !handle_run, !visit_record_eq.
  destruct (load_visits (visits_path cfg) d) as [visits|e].
  - destruct (save_visits _ _ d) as [[u|e] d1]; cbn [fst snd].
    + repeat split; [discriminate|].
      intros Hnl. rewrite (redirect_accepts _ Hnl). reflexivity.
    + repeat split; auto.
  - cbn [fst snd]. repeat split; auto.
Qed.

(** * Scenarios of section 8 *)

Lemma chrome_on_windows :
  _parse_user_agent
    (Some "Mozilla/5.0 (Windows NT 10.0) AppleWebKit/537.36 (KHTML, like Gecko) Chrome/99.0 Safari/537.36")
  = {| browser := "Chrome"; os := "Windows" |}.
Proof. reflexivity. Qed.

Lemma iphone_is_ios :
  os (_parse_user_agent
        (Some "Mozilla/5.0 (iPhone; CPU iPhone OS 15_0 like Mac OS X) AppleWebKit/605.1.15"))
  = "iOS".
Proof. reflexivity. Qed.

(** Classification is a function of the lower-cased agent alone. *)
Lemma classification_ignores_case (a b : string) :
  a <> "" -> b <> "" -> lower a = lower b ->
  _parse_user_agent (Some a) = _parse_user_agent (Some b).
Proof.
  intros Ha Hb Hlow.
  destruct a as [|c a]; [congruence|]. destruct b as [|c' b]; [congruence|].
  rewrite !parse_nonempty. cbv zeta. rewrite Hlow. reflexivity.
Qed.

(** * The classifier, rule by rule *)

Lemma edge_implies_edg (s : string) :
  contains "edge" s = true -> contains "edg" s = true.
Proof.
  rewrite !contains_iff. intros (pre & post & ->).
  exists pre, ("e" ++ post). reflexivity.
Qed.

Lemma lower_empty_inv (s : string) : lower s = "" -> s = "".
Proof. destruct s; [reflexivity | discriminate]. Qed.

(** X1. Whatever the input, the browser and the system are from the two
    closed sets of seven categories, and "Unknown" is given for both keys
    together, exactly when the user agent is absent or empty. *)
Theorem categories_and_unknown (ua : option string) :
  In (browser (_parse_user_agent ua)) browser_categories /\
  In (os (_parse_user_agent ua)) os_categories /\
  (browser (_parse_user_agent ua) = "Unknown" <-> ua = None \/ ua = Some "") /\
  (os (_parse_user_agent ua) = "Unknown" <-> ua = None \/ ua = Some "").
Proof.
  destruct ua as [[|c s]|].
  - repeat split; simpl; auto.
  - rewrite parse_nonempty. cbv zeta. cbn [browser os].
    unfold browser_categories, os_categories.
    repeat split; split_conditions; simpl; try tauto; try discriminate;
      intros [Hx | Hx]; discriminate.
  - repeat split; simpl; auto.
Qed.

(** X2. The classification is case-insensitive: two user agents with the
    same lower-cased form are classified alike. *)
Theorem classification_case_insensitive (a b : string) :
  lower a = lower b ->
  _parse_user_agent (Some a) = _parse_user_agent (Some b).
Proof.
  intros Hlow. destruct a as [|c a]; destruct b as [|c' b]; try reflexivity;
    try discriminate.
  rewrite !parse_nonempty. cbv zeta. rewrite Hlow. reflexivity.
Qed.

Lemma classification_case_insensitive_sample :
  _parse_user_agent (Some "MOZILLA/5.0 (X11; LINUX X86_64) FIREFOX/121.0")
  = _parse_user_agent (Some "mozilla/5.0 (x11; linux x86_64) firefox/121.0").
Proof.
  apply (classification_case_insensitive
           "MOZILLA/5.0 (X11; LINUX X86_64) FIREFOX/121.0"
           "mozilla/5.0 (x11; linux x86_64) firefox/121.0").
  reflexivity.
Defined.

(** X3. The browser cascade as a table over the lower-cased agent [l]:
    Edge iff "edg"; Opera iff no "edg" and "opr" or "opera"; Chrome iff
    none of these and both "chrome" and "safari" (the test on "edge" of
    line 25 never decides: "edg" is already excluded); Firefox iff none of
    these, not both "chrome" and "safari", and "firefox"; Safari iff none
    of these and "safari" without "chrome"; Other iff the agent is not
    empty and has none of "edg", "opr", "opera", "firefox", "safari"
    ("chrome" alone changes nothing). *)
Theorem browser_decision_table (ua : string) :
  (browser (_parse_user_agent (Some ua)) = "Edge" <->
   contains "edg" (lower ua) = true) /\
  (browser (_parse_user_agent (Some ua)) = "Opera" <->
   contains "edg" (lower ua) = false /\
   (contains "opr" (lower ua) = true \/ contains "opera" (lower ua) = true)) /\
  (browser (_parse_user_agent (Some ua)) = "Chrome" <->
   contains "edg" (lower ua) = false /\ contains "opr" (lower ua) = false /\
   contains "opera" (lower ua) = false /\
   contains "chrome" (lower ua) = true /\ contains "safari" (lower ua) = true) /\
  (browser (_parse_user_agent (Some ua)) = "Firefox" <->
   contains "edg" (lower ua) = false /\ contains "opr" (lower ua) = false /\
   contains "opera" (lower ua) = false /\
   (contains "chrome" (lower ua) = false \/ contains "safari" (lower ua) = false) /\
   contains "firefox" (lower ua) = true) /\
  (browser (_parse_user_agent (Some ua)) = "Safari" <->
   contains "edg" (lower ua) = false /\ contains "opr" (lower ua) = false /\
   contains "opera" (lower ua) = false /\ contains "firefox" (lower ua) = false /\
   contains "chrome" (lower ua) = false /\ contains "safari" (lower ua) = true) /\
  (browser (_parse_user_agent (Some ua)) = "Other" <->
   ua <> "" /\
   contains "edg" (lower ua) = false /\ contains "opr" (lower ua) = false /\
   contains "opera" (lower ua) = false /\ contains "firefox" (lower ua) = false /\
   contains "safari" (lower ua) = false).
Proof.
  destruct ua as [|c s].
  - cbn. repeat split; intros; repeat match goal with
                                      | H : _ /\ _ |- _ => destruct H
                                      | H : _ \/ _ |- _ => destruct H
                                      end; try discriminate; congruence.
  - rewrite parse_nonempty. cbv zeta. cbn [browser].
    generalize (edge_implies_edg (lower (String c s))).
    decide_cascade.
Qed.

(** X4. The system cascade as a table, first match first: Windows iff
    "windows"; Android iff "android" without "windows" (also when "linux"
    occurs); iOS iff neither and one of "iphone", "ipad", "ios" (also when
    "mac os x" occurs); macOS iff none of these and "mac os x" or
    "macintosh"; Linux iff none of these and "linux"; Other iff the agent
    is not empty and has none of the eight patterns. *)
Theorem os_decision_table (ua : string) :
  (os (_parse_user_agent (Some ua)) = "Windows" <->
   contains "windows" (lower ua) = true) /\
  (os (_parse_user_agent (Some ua)) = "Android" <->
   contains "windows" (lower ua) = false /\ contains "android" (lower ua) = true) /\
  (os (_parse_user_agent (Some ua)) = "iOS" <->
   contains "windows" (lower ua) = false /\ contains "android" (lower ua) = false /\
   (contains "iphone" (lower ua) = true \/ contains "ipad" (lower ua) = true \/
    contains "ios" (lower ua) = true)) /\
  (os (_parse_user_agent (Some ua)) = "macOS" <->
   contains "windows" (lower ua) = false /\ contains "android" (lower ua) = false /\
   contains "iphone" (lower ua) = false /\ contains "ipad" (lower ua) = false /\
   contains "ios" (lower ua) = false /\
   (contains "mac os x" (lower ua) = true \/ contains "macintosh" (lower ua) = true)) /\
  (os (_parse_user_agent (Some ua)) = "Linux" <->
   contains "windows" (lower ua) = false /\ contains "android" (lower ua) = false /\
   contains "iphone" (lower ua) = false /\ contains "ipad" (lower ua) = false /\
   contains "ios" (lower ua) = false /\
   contains "mac os x" (lower ua) = false /\ contains "macintosh" (lower ua) = false /\
   contains "linux" (lower ua) = true) /\
  (os (_parse_user_agent (Some ua)) = "Other" <->
   ua <> "" /\ matches_none os_patterns ua = true).
Proof.
  unfold matches_none, os_patterns. cbn [forallb].
  destruct ua as [|c s].
  - cbn. repeat split; intros; repeat match goal with
                                      | H : _ /\ _ |- _ => destruct H
                                      | H : _ \/ _ |- _ => destruct H
                                      end; try discriminate; congruence.
  - rewrite parse_nonempty. cbv zeta. cbn [os].
    decide_cascade.
Qed.

(** * More on the client address *)

Lemma append_assoc_string (a b c : string) : (a ++ b) ++ c = a ++ (b ++ c).
Proof.
  induction a as [|x a IH]; [reflexivity|].
  rewrite !append_cons, IH. reflexivity.
Qed.

(** What occurs in the stripped string occurs in the string. *)
Lemma contains_strip (sub s : string) :
  contains sub (strip s) = true -> contains sub s = true.
Proof.
  destruct (strip_trimmed s) as [_ (l & r & Hs & _)].
  rewrite !contains_iff. intros (pre & post & Hstrip).
  exists (l ++ pre), (post ++ r). rewrite Hs at 1. rewrite Hstrip.
  rewrite !append_assoc_string. reflexivity.
Qed.

Lemma blank_has_no_comma (blank : string) :
  every isspace blank = true -> contains "," blank = false.
Proof.
  induction blank as [|c blank IH]; [reflexivity|].
  cbn [every]. rewrite andb_true_iff, contains_comma_cons. intros [Hc Hrest].
  rewrite (IH Hrest), orb_false_r.
  destruct (Ascii.eqb_spec c ","); [subst c; discriminate | reflexivity].
Qed.

Lemma lstrip_blank (blank : string) : every isspace blank = true -> lstrip blank = "".
Proof.
  induction blank as [|c blank IH]; [reflexivity|].
  cbn [every lstrip]. rewrite andb_true_iff. intros [-> Hrest]. exact (IH Hrest).
Qed.

(** The first entry of [entry ++ "," ++ rest] is [entry] when [entry]
    has no comma. *)
Lemma split_first_app (entry rest : string) :
  contains "," entry = false ->
  item0 (split "," (entry ++ "," ++ rest)) = entry /\
  contains "," (entry ++ "," ++ rest) = true.
Proof.
  induction entry as [|c entry IH].
  - intros _. split; [reflexivity|].
    change ("" ++ "," ++ rest) with (String "," rest).
    rewrite contains_comma_cons. reflexivity.
  - rewrite contains_comma_cons, orb_false_iff. intros [Hc Hentry].
    destruct (IH Hentry) as [IHhead IHcomma].
    rewrite append_cons, contains_comma_cons, IHcomma, orb_true_r.
    split; [|reflexivity].
    cbn [split]. rewrite Hc.
    destruct (split "," (entry ++ "," ++ rest)) as [|h t] eqn:Hsplit;
      [destruct (split_not_nil _ _ Hsplit)|].
    cbn [item0 hd] in IHhead |- *. rewrite IHhead. reflexivity.
Qed.

(** Lines 68-69 leave no comma. *)
Lemma first_hop_has_no_comma (s : string) :
  contains "," (if contains "," s then strip (item0 (split "," s)) else s) = false.
Proof.
  destruct (contains "," s) eqn:Hcomma; [|exact Hcomma].
  destruct (contains "," (strip (item0 (split "," s)))) eqn:Hstrip; [|reflexivity].
  apply contains_strip in Hstrip.
  rewrite (proj1 (split_first_entry s)) in Hstrip. discriminate.
Qed.

(** X5. The address a record stores never has a comma in it: a chain is
    cut before its first comma, from the forwarding header or from the
    peer address alike. *)
Theorem resolved_ip_has_no_comma (ep : endpoint) (cfg : Config) (w : World)
    (token : string) (rq : Request) (a : string) :
  Visit.ip (visit_record ep cfg w token rq) = Some a ->
  contains "," a = false.
Proof.
  rewrite resolved_ip.
  destruct (match headers rq !! "X-Forwarded-For" with
            | Some v => Some v
            | None => remote_addr rq
            end) as [s|]; [|discriminate].
  intros Hip. injection Hip as <-. apply first_hop_has_no_comma.
Qed.

Lemma resolved_ip_has_no_comma_sample :
  headers proxied_request !! "X-Forwarded-For" = Some "203.0.113.5, 10.0.0.1" /\
  Visit.ip (visit_record ClickEndpoint sample_config (world_with None) "promo"
              proxied_request) = Some "203.0.113.5" /\
  contains "," "203.0.113.5" = false.
Proof.
  split; [reflexivity|]. split; [reflexivity|].
  apply (resolved_ip_has_no_comma ClickEndpoint sample_config (world_with None) "promo"
           proxied_request "203.0.113.5").
  reflexivity.
Defined.

(** X6. The stored address is null exactly when the request has neither
    a forwarding header nor a peer address; a forwarding header, be it
    empty, is never replaced by the peer address. *)
Theorem resolved_ip_null_iff (ep : endpoint) (cfg : Config) (w : World)
    (token : string) (rq : Request) :
  (Visit.ip (visit_record ep cfg w token rq) = None <->
   headers rq !! "X-Forwarded-For" = None /\ remote_addr rq = None) /\
  (headers rq !! "X-Forwarded-For" = Some "" ->
   Visit.ip (visit_record ep cfg w token rq) = Some "").
Proof.
  rewrite resolved_ip. split.
  - destruct (headers rq !! "X-Forwarded-For") as [h|];
      [|destruct (remote_addr rq) as [a|]]; split;
      try discriminate; try (intros [? ?]; discriminate); auto.
  - intros ->. reflexivity.
Qed.

Lemma resolved_ip_null_iff_sample :
  Visit.ip (visit_record ClickEndpoint sample_config (world_with None) "promo"
              {| headers := <["X-Forwarded-For" := ""]> ∅; args := ∅;
                 remote_addr := Some "198.51.100.7" |}) = Some "".
Proof.
  apply (proj2 (resolved_ip_null_iff ClickEndpoint sample_config (world_with None)
                  "promo"
                  {| headers := <["X-Forwarded-For" := ""]> ∅; args := ∅;
                     remote_addr := Some "198.51.100.7" |})).
  reflexivity.
Defined.

(** X7. A chain whose first entry is blank (empty or white space only)
    resolves to the empty string: not to null, not to the next hop, not to
    the peer address. *)
Theorem blank_first_hop_resolves_empty (ep : endpoint) (cfg : Config) (w : World)
    (token : string) (rq : Request) (blank rest : string) :
  headers rq !! "X-Forwarded-For" = Some (blank ++ "," ++ rest) ->
  every isspace blank = true ->
  Visit.ip (visit_record ep cfg w token rq) = Some "".
Proof.
  intros Hh Hblank. rewrite resolved_ip, Hh.
  destruct (split_first_app blank rest (blank_has_no_comma blank Hblank))
    as [-> ->].
  unfold strip. rewrite (lstrip_blank blank Hblank). reflexivity.
Qed.

Lemma blank_first_hop_resolves_empty_sample :
  Visit.ip (visit_record ImageEndpoint sample_config (world_with None) "pixel"
              blank_first_hop_request) = Some "".
Proof.
  apply (blank_first_hop_resolves_empty ImageEndpoint sample_config (world_with None)
           "pixel" blank_first_hop_request "  " " 10.0.0.1"); reflexivity.
Defined.

(** * What a record depends on *)

(** X8. A record is determined by the forwarding header, the user-agent
    header, the peer address, the token, the clock and the six keys read
    from the lookup's answer for the resolved address: the endpoint, the
    query string, every other header, every other key of the answer, the
    storage path and the default target have no part in it. *)
Theorem record_reads_only (ep ep' : endpoint) (cfg cfg' : Config) (w w' : World)
    (token : string) (rq rq' : Request) :
  headers rq !! "X-Forwarded-For" = headers rq' !! "X-Forwarded-For" ->
  headers rq !! "User-Agent" = headers rq' !! "User-Agent" ->
  remote_addr rq = remote_addr rq' ->
  utcnow_iso w = utcnow_iso w' ->
  (forall key : string,
     In key ["country"; "regionName"; "city"; "lat"; "lon"; "isp"] ->
     dict_get (default ∅ (geo_lookup w (Visit.ip (visit_record ep cfg w token rq))
                            (ip_api cfg))) key
     = dict_get (default ∅ (geo_lookup w' (Visit.ip (visit_record ep cfg w token rq))
                              (ip_api cfg'))) key) ->
  visit_record ep cfg w token rq = visit_record ep' cfg' w' token rq'.
Proof.
  intros Hxff Hua Hpeer Hnow Hgeo.
  rewrite (visit_record_eq ep) in Hgeo |- *. rewrite (visit_record_eq ep').
  unfold track_click_record in Hgeo |- *. cbn [Visit.ip] in Hgeo.
  rewrite <- Hxff, <- Hua, <- Hpeer, <- Hnow.
  rewrite <- (Hgeo "country"), <- (Hgeo "regionName"), <- (Hgeo "city"),
    <- (Hgeo "lat"), <- (Hgeo "lon"), <- (Hgeo "isp") by (simpl; tauto).
  reflexivity.
Qed.

Lemma record_reads_only_sample :
  visit_record ClickEndpoint sample_config (world_with (Some paris)) "promo"
    proxied_request
  = visit_record ImageEndpoint other_config (world_with (Some paris_with_zip)) "promo"
      noisy_request.
Proof.
  apply (record_reads_only ClickEndpoint ImageEndpoint sample_config other_config
           (world_with (Some paris)) (world_with (Some paris_with_zip)) "promo"
           proxied_request noisy_request); try reflexivity.
  intros key Hkey. simpl in Hkey.
  destruct Hkey as [<- | [<- | [<- | [<- | [<- | [<- | []]]]]]]; reflexivity.
Defined.

(** X9. When the lookup's answer has no latitude or no longitude (the
    key is missing, or null), the record has no map link, whatever the
    other coordinate is. *)
Theorem missing_coordinate_no_link (ep : endpoint) (cfg : Config) (w : World)
    (token : string) (rq : Request) (geo : gmap string pyval) :
  geo_lookup w (Visit.ip (visit_record ep cfg w token rq)) (ip_api cfg) = Some geo ->
  dict_get geo "lat" = PNone \/ dict_get geo "lon" = PNone ->
  Visit.google_maps_url (visit_record ep cfg w token rq) = None.
Proof.
  intros Hgeo Hmissing. apply missing_coordinate_has_no_link.
  destruct (record_coordinates ep cfg w token rq) as [Hlat Hlon].
  cbv zeta in Hlat, Hlon. rewrite Hgeo in Hlat, Hlon. cbn [default] in Hlat, Hlon.
  rewrite Hlat, Hlon. exact Hmissing.
Qed.

Lemma missing_coordinate_no_link_sample :
  Visit.lon (visit_record ClickEndpoint sample_config (world_with (Some no_latitude))
               "promo" bare_request) = PFloat 2.35 /\
  Visit.google_maps_url
    (visit_record ClickEndpoint sample_config (world_with (Some no_latitude)) "promo"
       bare_request) = None.
Proof.
  split; [reflexivity|].
  apply (missing_coordinate_no_link ClickEndpoint sample_config
           (world_with (Some no_latitude)) "promo" bare_request no_latitude).
  - reflexivity.
  - left. reflexivity.
Defined.

(** "Unknown" comes for both keys or for neither. *)
Lemma unknown_together (ua : option string) :
  browser (_parse_user_agent ua) = "Unknown" <-> os (_parse_user_agent ua) = "Unknown".
Proof.
  destruct ua as [[|c s]|]; try (split; reflexivity).
  rewrite parse_nonempty. cbv zeta. cbn [browser os].
  split; intros Hx; exfalso; revert Hx; split_conditions; discriminate.
Qed.

(** Every record the endpoints build is well formed. *)
Lemma record_well_formed (ep : endpoint) (cfg : Config) (w : World) (token : string)
    (rq : Request) :
  well_formed (visit_record ep cfg w token rq).
Proof.
  unfold well_formed. repeat split.
  - rewrite visit_record_eq. apply categories_closed.
  - rewrite visit_record_eq. apply categories_closed.
  - rewrite visit_record_eq. apply unknown_together.
  - rewrite visit_record_eq. apply unknown_together.
  - intros a. rewrite resolved_ip.
    destruct (match headers rq !! "X-Forwarded-For" with
              | Some v => Some v
              | None => remote_addr rq
              end) as [s|]; [|discriminate].
    intros Hip. injection Hip as <-. apply first_hop_has_no_comma.
  - rewrite google_maps_url_eq.
    destruct (isinstance_int_float _ || isinstance_int_float _); [reflexivity|].
    intros Hnone. destruct Hnone. reflexivity.
Qed.

(** * More on the handlers *)

(** X10. [image_tracker] answers exactly when loading and saving succeed;
    what it saves is the loaded collection with its one record at the end,
    and the answer is the page "image_page.html" showing [src] when that
    argument is present and not empty, the placeholder image when it is
    absent or empty. *)
Theorem image_tracker_records_then_renders `{Storage disk} (cfg : Config) (w : World)
    (token : string) (rq : Request) (d d' : disk) (resp : response) :
  image_tracker cfg w token rq d = (Returned resp, d') <->
  exists visits : list Visit.t,
    load_visits (visits_path cfg) d = Returned visits /\
    save_visits (visits_path cfg) (visits ++ [image_tracker_record cfg w token rq])%list d
    = (Returned tt, d') /\
    resp = render_template "image_page.html"
             match args rq !! "src" with
             | Some (String c rest) => String c rest
             | Some "" | None => "https://via.placeholder.com/800x500.png?text=Image"
             end.
Proof.
  change (image_tracker cfg w token rq) with (handle ImageEndpoint cfg w token rq).
  rewrite handle_returns_iff. cbn [visit_record]. unfold or_else. reflexivity.
Qed.

(** X11. A handler raises in three cases only: [load_visits] raised, in
    which case nothing is saved and the disk is as it was; or
    [save_visits] raised on the collection with the new record at the
    end; or, for a click, the collection was saved with the new record
    and [redirect] refused a target holding a carriage return or a line
    feed with [ValueError].  No response is produced in any of them. *)
Theorem handler_raises_iff `{Storage disk} (ep : endpoint) (cfg : Config) (w : World)
    (token : string) (rq : Request) (d d' : disk) (e : exn) :
  handle ep cfg w token rq d = (Raised e, d') <->
  (load_visits (visits_path cfg) d = Raised e /\ d' = d) \/
  (exists visits : list Visit.t,
     load_visits (visits_path cfg) d = Returned visits /\
     save_visits (visits_path cfg) (visits ++ [visit_record ep cfg w token rq])%list d
     = (Raised e, d')) \/
  (exists visits : list Visit.t,
     load_visits (visits_path cfg) d = Returned visits /\
     save_visits (visits_path cfg) (visits ++ [visit_record ep cfg w token rq])%list d
     = (Returned tt, d') /\
     ep = ClickEndpoint /\ has_newline (chosen_target cfg rq) = true /\
     e = ValueError).
Proof.
  rewrite handle_run.
  destruct (load_visits (visits_path cfg) d) as [visits|e0].
  - destruct (save_visits _ _ d) as [[[]|e1] d1] eqn:Hsave.
    + assert (Hback :
        (Returned visits = Raised e /\ d' = d) \/
        (exists v : list Visit.t,
           Returned visits = Returned v /\
           save_visits (visits_path cfg) (v ++ [visit_record ep cfg w token rq])%list d
           = (Raised e, d')) \/
        (exists v : list Visit.t,
           Returned visits = Returned v /\
           save_visits (visits_path cfg) (v ++ [visit_record ep cfg w token rq])%list d
           = (Returned tt, d') /\
           ep = ClickEndpoint /\ has_newline (chosen_target cfg rq) = true /\
           e = ValueError) ->
        d' = d1 /\ ep = ClickEndpoint /\
        has_newline (chosen_target cfg rq) = true /\ e = ValueError).
      { intros [[Hload _] | [(v & Hload & Hx) | (v & Hload & Hx & Hep & Hnl & He)]];
          [discriminate | |]; injection Hload as <-; rewrite Hsave in Hx;
          [discriminate|]. injection Hx as <-. auto. }
      split.
      * destruct ep.
        -- unfold Flask.redirect.
           destruct (has_newline (chosen_target cfg rq)) eqn:Hnl; [|discriminate].
           intros Hrun. injection Hrun as <- <-. right. right. exists visits. auto.
        -- discriminate.
      * intros Hcases. destruct (Hback Hcases) as (-> & -> & Hnl & ->).
        rewrite (redirect_refuses _ Hnl). reflexivity.
    + split.
      * intros Hrun. injection Hrun as <- <-. right. left. exists visits. auto.
      * intros [[Hload _] | [(v & Hload & Hx) | (v & Hload & Hx & _)]];
          [discriminate | |]; injection Hload as <-; rewrite Hsave in Hx;
          [|discriminate]. injection Hx as <- <-. reflexivity.
  - split.
    + intros Hrun. injection Hrun as <- <-. left. auto.
    + intros [[Hload ->] | [(v & Hload & _) | (v & Hload & _)]];
        [|discriminate|discriminate].
      injection Hload as <-. reflexivity.
Qed.

(** A target with a carriage return: the record is saved, then
    [ValueError]. *)
Lemma handler_raises_iff_sample :
  handle ClickEndpoint sample_config (world_with None) "promo"
    {| headers := ∅;
       args := <["next" := String "013" "https://example.org/"]> ∅;
       remote_addr := None |} empty_disk
  = (Raised ValueError,
     {| files :=
          <["data/visits.json" :=
              [visit_record ClickEndpoint sample_config (world_with None) "promo"
                 {| headers := ∅;
                    args := <["next" := String "013" "https://example.org/"]> ∅;
                    remote_addr := None |}]]> ∅;
        read_only := false |}).
Proof.
  apply (proj2 (handler_raises_iff ClickEndpoint sample_config (world_with None) "promo"
                  {| headers := ∅;
                     args := <["next" := String "013" "https://example.org/"]> ∅;
                     remote_addr := None |} empty_disk _ ValueError)).
  right. right. exists []. repeat split.
Defined.

(** X17. Where the visitor is sent depends on the query argument and the
    default target only: two answered requests to [/t/<token>] with the
    same [next] under the same default target get the same redirect,
    whatever their headers, tokens, lookups and disks are; likewise for
    [/img/<token>] and [src]. *)
Theorem response_reads_only `{Storage disk} (ep : endpoint) (cfg cfg' : Config)
    (w w' : World) (token token' : string) (rq rq' : Request) (d d1 d' d1' : disk)
    (resp resp' : response) :
  handle ep cfg w token rq d = (Returned resp, d1) ->
  handle ep cfg' w' token' rq' d' = (Returned resp', d1') ->
  args rq !! (match ep with ClickEndpoint => "next" | ImageEndpoint => "src" end)
  = args rq' !! (match ep with ClickEndpoint => "next" | ImageEndpoint => "src" end) ->
  default_target cfg = default_target cfg' ->
  resp = resp'.
Proof.
  intros Hrun Hrun' Hargs Htarget.
  apply handle_returns_iff in Hrun, Hrun'.
  destruct Hrun as (visits & _ & _ & Hresp).
  destruct Hrun' as (visits' & _ & _ & Hresp').
  destruct ep.
  - destruct Hresp as [_ ->]. destruct Hresp' as [_ ->].
    unfold chosen_target. rewrite Hargs, Htarget. reflexivity.
  - subst resp resp'. rewrite Hargs. reflexivity.
Qed.

Lemma response_reads_only_sample :
  fst (track_click sample_config (world_with None) "promo" bare_request empty_disk)
  = Returned (redirect "https://example.com/landing") /\
  fst (track_click sample_config (world_with (Some paris)) "spring"
         blank_first_hop_request empty_disk)
  = Returned (redirect "https://example.com/landing") /\
  redirect "https://example.com/landing" = redirect "https://example.com/landing".
Proof.
  split; [reflexivity|]. split; [reflexivity|].
  apply (@response_reads_only mem_disk mem_storage ClickEndpoint sample_config
           sample_config (world_with None) (world_with (Some paris)) "promo" "spring"
           bare_request blank_first_hop_request empty_disk
           (snd (track_click sample_config (world_with None) "promo" bare_request
                   empty_disk))
           empty_disk
           (snd (track_click sample_config (world_with (Some paris)) "spring"
                   blank_first_hop_request empty_disk)));
    reflexivity.
Defined.

(** X12. Serving keeps the stored collection well formed: when the
    collection holds well-formed records and N requests are served one
    after the other, all answered, the collection then holds N more
    records and every one of them is well formed (categories from the
    closed sets, no comma in the address, a link only beside a numeric
    coordinate). *)
Theorem stored_records_stay_well_formed `{StorageContract disk} (cfg : Config)
    (hits : list hit) (d0 : disk) (stored : list Visit.t) :
  load_visits (visits_path cfg) d0 = Returned stored ->
  Forall well_formed stored ->
  forallb is_returned (fst (serve_all cfg hits d0)) = true ->
  exists final : list Visit.t,
    load_visits (visits_path cfg) (snd (serve_all cfg hits d0)) = Returned final /\
    Forall well_formed final /\
    length final = (length stored + length hits)%nat.
Proof.
  revert d0 stored.
  induction hits as [|h rest IH]; intros d0 stored Hload Hwf Hall.
  - exists stored. cbn [serve_all snd length]. auto.
  - rewrite serve_all_cons in Hall |- *. cbv zeta in Hall |- *.
    cbn [fst snd forallb] in Hall |- *.
    apply andb_true_iff in Hall. destruct Hall as [Hfirst Hrest].
    destruct (handle (hit_endpoint h) cfg (hit_world h) (hit_token h) (hit_request h) d0)
      as [[resp|e] d1] eqn:Hrun; [|discriminate].
    apply recording_appends_one in Hrun.
    destruct Hrun as (visits & Hbefore & Hafter).
    rewrite Hload in Hbefore. injection Hbefore as <-.
    cbn [fst snd] in Hrest |- *.
    destruct (IH d1 _ Hafter) as (final & Hfinal & Hwf' & Hlen).
    + apply Forall_app. split; [exact Hwf|].
      constructor; [apply record_well_formed | constructor].
    + exact Hrest.
    + exists final. repeat split; [exact Hfinal | exact Hwf' |].
      rewrite Hlen, length_app. cbn [length]. lia.
Qed.

Lemma stored_records_stay_well_formed_sample :
  exists final : list Visit.t,
    load_visits (visits_path sample_config)
      (snd (serve_all sample_config two_hits empty_disk)) = Returned final /\
    Forall well_formed final /\
    length final = (length (@nil Visit.t) + length two_hits)%nat.
Proof.
  apply (@stored_records_stay_well_formed mem_disk mem_storage mem_storage_contract
           sample_config two_hits empty_disk []).
  - reflexivity.
  - constructor.
  - reflexivity.
Defined.

(** X13. Overlapping requests lose a record: when two tracked requests
    both load the collection before either saves, the collection holds
    afterwards the second request's record only; the first one's is
    overwritten, and the length has grown by one for two requests. *)
Theorem overlapped_requests_lose_a_record `{StorageContract disk} (cfg : Config)
    (a b : hit) (d0 d2 : disk) (stored : list Visit.t) :
  load_visits (visits_path cfg) d0 = Returned stored ->
  serve_overlapped cfg a b d0 = (Returned tt, d2) ->
  load_visits (visits_path cfg) d2 = Returned (stored ++ [hit_record cfg b])%list /\
  length (stored ++ [hit_record cfg b])%list = S (length stored).
Proof.
  intros Hload Hrun. split; [|rewrite length_app; cbn [length]; lia].
  unfold serve_overlapped, io_bind, io_load, io_save in Hrun.
  rewrite Hload in Hrun.
  destruct (save_visits (visits_path cfg) (stored ++ [hit_record cfg a])%list d0)
    as [[u|e] d1]; [|discriminate].
  eapply load_after_save. exact Hrun.
Qed.

Lemma overlapped_requests_lose_a_record_sample :
  load_visits (visits_path sample_config)
    (snd (serve_overlapped sample_config click_hit pixel_hit empty_disk))
  = Returned ([] ++ [hit_record sample_config pixel_hit])%list /\
  length ([] ++ [hit_record sample_config pixel_hit])%list = S (length (@nil Visit.t)).
Proof.
  apply (@overlapped_requests_lose_a_record mem_disk mem_storage mem_storage_contract
           sample_config click_hit pixel_hit empty_disk _ []); reflexivity.
Defined.

(** * The views *)

Lemma list_visits_run `{Storage disk} (cfg : Config) (d : disk) :
  list_visits cfg d =
  match load_visits (visits_path cfg) d with
  | Returned visits => (Returned (jsonify visits), d)
  | Raised e => (Raised e, d)
  end.
Proof.
  unfold list_visits, io_bind, io_load, io_ret.
  destruct (load_visits (visits_path cfg) d); reflexivity.
Qed.

Lemma dashboard_run `{Storage disk} (cfg : Config) (d : disk) :
  dashboard cfg d =
  match load_visits (visits_path cfg) d with
  | Returned visits => (Returned (render_template_visits "dashboard.html" visits), d)
  | Raised e => (Raised e, d)
  end.
Proof.
  unfold dashboard, io_bind, io_load, io_ret.
  destruct (load_visits (visits_path cfg) d); reflexivity.
Qed.

(** X14. What is tracked is what is shown: after a tracked request that
    was answered, [/visits] returns the collection it returned before with
    the request's record at the end, and [/dashboard] renders the same
    collection; neither view changes the disk. *)
Theorem tracked_visit_is_listed `{StorageContract disk} (ep : endpoint) (cfg : Config)
    (w : World) (token : string) (rq : Request) (d d' : disk) (resp : response) :
  handle ep cfg w token rq d = (Returned resp, d') ->
  exists visits : list Visit.t,
    list_visits cfg d = (Returned (jsonify visits), d) /\
    list_visits cfg d'
    = (Returned (jsonify (visits ++ [visit_record ep cfg w token rq])%list), d') /\
    dashboard cfg d'
    = (Returned (render_template_visits "dashboard.html"
                   (visits ++ [visit_record ep cfg w token rq])%list), d').
Proof.
  intros Hrun. apply recording_appends_one in Hrun.
  destruct Hrun as (visits & Hbefore & Hafter). exists visits.
  rewrite !list_visits_run, dashboard_run, Hbefore, Hafter. auto.
Qed.

Lemma tracked_visit_is_listed_sample :
  exists visits : list Visit.t,
    list_visits sample_config empty_disk = (Returned (jsonify visits), empty_disk) /\
    list_visits sample_config
      (snd (track_click sample_config (world_with (Some paris)) "promo"
              proxied_request empty_disk))
    = (Returned
         (jsonify
            (visits ++ [visit_record ClickEndpoint sample_config
                          (world_with (Some paris)) "promo" proxied_request])%list),
       snd (track_click sample_config (world_with (Some paris)) "promo"
              proxied_request empty_disk)) /\
    dashboard sample_config
      (snd (track_click sample_config (world_with (Some paris)) "promo"
              proxied_request empty_disk))
    = (Returned
         (render_template_visits "dashboard.html"
            (visits ++ [visit_record ClickEndpoint sample_config
                          (world_with (Some paris)) "promo" proxied_request])%list),
       snd (track_click sample_config (world_with (Some paris)) "promo"
              proxied_request empty_disk)).
Proof.
  apply (@tracked_visit_is_listed mem_disk mem_storage mem_storage_contract
           ClickEndpoint sample_config (world_with (Some paris)) "promo"
           proxied_request empty_disk _ (redirect "https://example.org/article")).
  reflexivity.
Defined.

(** * Starting the application *)

Lemma subscript_started {V : Type} (d : gmap string V) (key : string) (v : V) :
  subscript d key = Started v <-> d !! key = Some v.
Proof.
  unfold subscript. destruct (d !! key); split; intros Hx;
    try discriminate; congruence.
Qed.

(** X15. [create_app] starts exactly when the configuration has
    [storage.visits_path], [tracking.ip_info_api] and
    [tracking.default_target_url]; the application then runs with these
    three values, and nothing else of the configuration is read. *)
Theorem create_app_started_iff (config : gmap string (gmap string string))
    (cfg : Config) :
  create_app config = Started cfg <->
  exists storage tracking : gmap string string,
    config !! "storage" = Some storage /\
    config !! "tracking" = Some tracking /\
    storage !! "visits_path" = Some (visits_path cfg) /\
    tracking !! "ip_info_api" = Some (ip_api cfg) /\
    tracking !! "default_target_url" = Some (default_target cfg).
Proof.
  unfold create_app, subscript, startup_bind. split.
  - destruct (config !! "storage") as [storage|]; [|discriminate].
    destruct (storage !! "visits_path") as [path|] eqn:Hpath; [|discriminate].
    destruct (config !! "tracking") as [tracking|]; [|discriminate].
    destruct (tracking !! "ip_info_api") as [api|] eqn:Hapi; [|discriminate].
    destruct (tracking !! "default_target_url") as [target|] eqn:Htarget;
      [|discriminate].
    intros Hstart. injection Hstart as <-. exists storage, tracking.
    cbn [visits_path ip_api default_target]. auto.
  - intros (storage & tracking & -> & -> & -> & -> & ->).
    destruct cfg. reflexivity.
Qed.

(** X16. When a key is missing, [create_app] raises the [KeyError] of
    the first subscript that fails, in the order of lines 54-56:
    "storage", "visits_path", "tracking", "ip_info_api",
    "default_target_url". *)
Theorem create_app_key_error (config : gmap string (gmap string string))
    (key : string) :
  create_app config = KeyError key <->
  match config !! "storage" with
  | None => key = "storage"
  | Some storage =>
      match storage !! "visits_path" with
      | None => key = "visits_path"
      | Some _ =>
          match config !! "tracking" with
          | None => key = "tracking"
          | Some tracking =>
              match tracking !! "ip_info_api" with
              | None => key = "ip_info_api"
              | Some _ =>
                  match tracking !! "default_target_url" with
                  | None => key = "default_target_url"
                  | Some _ => False
                  end
              end
          end
      end
  end.
Proof.
  unfold create_app, subscript, startup_bind.
  destruct (config !! "storage") as [storage|];
    [destruct (storage !! "visits_path") as [path|];
     [destruct (config !! "tracking") as [tracking|];
      [destruct (tracking !! "ip_info_api") as [api|];
       [destruct (tracking !! "default_target_url") as [target|]|]|]|]|];
    split; intros Hx; try discriminate; try congruence; try contradiction.
Qed.

Lemma create_app_sample :
  create_app full_config = Started sample_config /\
  create_app (delete "tracking" full_config) = KeyError "tracking".
Proof. split; vm_compute; reflexivity. Qed.
